(** * dpi_enhancer: the image-enhancement pixel pipeline of [src/App.tsx]

    A shallow embedding of [applyDenoise], [applyDeblur],
    [applyImageEnhancements] and [enhanceImage], followed by the properties
    of the pipeline.

    - JavaScript numbers are IEEE 754 binary64 values: Rocq's primitive
      [float], with the operators of [PrimFloat].
    - A [Uint8ClampedArray] is a [list Z]; every store goes through
      [ToUint8Clamp], and a store outside the array is ignored.
    - The 2D context is a state (the canvas bitmap) threaded through a
      small state-and-exception monad; [getImageData] may throw.  The
      bitmap keeps the bytes that [putImageData] writes: the loss that a
      browser may add when it stores premultiplied colours is not
      modelled.
    - Indices and counters are integers: the program computes them in
      binary64, where they are exact below [2^53], far above the size of
      any buffer. *)

From Stdlib Require Import ZArith Lia List Bool Floats Sorting.Sorted
  Sorting.Permutation.
From stdpp Require Import base tactics option list list_numbers sorting.

Set Warnings "-inexact-float".
Local Open Scope Z_scope.

(** ** JavaScript numbers *)

Module JS.

(** An integer-valued number (an array element, a length, a dimension)
    as a float.  Exact below [2^53]. *)
Definition of_int (z : Z) : float := PrimFloat.of_uint63 (Uint63.of_Z z).

(** The result of [Math.ceil], kept as an integer when it is one. *)
Inductive ceiling : Type :=
| CeilNaN
| CeilInf (negative : bool)
| CeilInt (z : Z).

(** Signed mantissa times [2^e], rounded towards minus infinity. *)
Definition floor_scaled (n e : Z) : Z := Z.shiftl n e.

Definition Math_ceil (x : float) : ceiling :=
  match Prim2SF x with
  | S754_nan => CeilNaN
  | S754_infinity s => CeilInf s
  | S754_zero _ => CeilInt 0
  | S754_finite s m e =>
      let n := if s then Z.neg m else Z.pos m in
      CeilInt (- floor_scaled (- n) e)
  end.

(** [Math.min] and [Math.max]: NaN is contagious, and [-0 < +0]. *)
Definition Math_min (a b : float) : float :=
  if is_nan a || is_nan b then nan
  else if (a <? b)%float then a
  else if (b <? a)%float then b
  else if get_sign a then a else b.

Definition Math_max (a b : float) : float :=
  if is_nan a || is_nan b then nan
  else if (a <? b)%float then b
  else if (b <? a)%float then a
  else if get_sign a then b else a.

Definition Math_abs (x : float) : float := abs x.

(** [ToUint8Clamp] of ECMAScript, the conversion of every store into a
    [Uint8ClampedArray]: NaN becomes 0, the value is clamped to
    [0, 255] and rounded to the nearest integer, ties to even. *)
Definition round_half_even (n d : Z) : Z :=
  let q := n / d in
  let r := n mod d in
  if 2 * r <? d then q
  else if d <? 2 * r then q + 1
  else if Z.even q then q else q + 1.

Definition ToUint8Clamp (x : float) : Z :=
  match Prim2SF x with
  | S754_finite false m e =>
      if 0 <=? e then Z.min 255 (Z.pos m * 2 ^ e)
      else Z.min 255 (round_half_even (Z.pos m) (2 ^ (- e)))
  | S754_infinity false => 255
  | _ => 0
  end.

(** The conversion of a number to a WebIDL [unsigned long]: NaN and the
    infinities give 0, the value is truncated towards zero and taken
    modulo [2^32]. *)
Definition ToUnsignedLong (x : float) : Z :=
  match Prim2SF x with
  | S754_finite s m e =>
      let t := if 0 <=? e then Z.pos m * 2 ^ e else Z.pos m / 2 ^ (- e) in
      (if s then - t else t) mod 2 ^ 32
  | _ => 0
  end.

(** [Math.round]: the nearest integer, ties towards plus infinity
    (for the values that a dimension can take). *)
Definition Math_round (x : float) : Z :=
  match Prim2SF x with
  | S754_finite s m e =>
      let n := if s then Z.neg m else Z.pos m in
      if 0 <=? e then n * 2 ^ e
      else (2 * n + 2 ^ (- e)) / (2 * 2 ^ (- e))
  | _ => 0
  end.

End JS.
Import JS.

(** ** Typed arrays and loops *)

(** [a[i]] on a [Uint8ClampedArray]: [None] is [undefined]. *)
Definition byte_at (a : list Z) (i : Z) : option Z :=
  if i <? 0 then None else a !! Z.to_nat i.

(** An element, or [undefined], used in arithmetic. *)
Definition to_number (v : option Z) : float :=
  match v with
  | Some b => of_int b
  | None => nan
  end.

Definition u8_get (a : list Z) (i : Z) : float := to_number (byte_at a i).

(** [a[i] = v]: the value is converted by [ToUint8Clamp]; a store outside
    the array does nothing. *)
Definition u8_set (a : list Z) (i : Z) (v : float) : list Z :=
  if i <? 0 then a else <[Z.to_nat i := ToUint8Clamp v]> a.

(** [for (let i = lo; i < hi; i++) body], on the state the body updates. *)
Definition for_loop {S : Type} (lo hi : Z) (body : Z -> S -> S) (s : S) : S :=
  fold_left (fun acc i => body i acc) (seqZ lo (hi - lo)) s.

(** [for (let i = lo; i < hi; i += step) body], for a positive [step]. *)
Definition for_step {S : Type} (lo hi step : Z) (body : Z -> S -> S) (s : S)
  : S :=
  fold_left (fun acc k => body (lo + step * k) acc)
    (seqZ 0 ((hi - lo + step - 1) / step)) s.

(** [(y * width + x) * 4 + c] *)
Definition pixel_index (width x y c : Z) : Z := (y * width + x) * 4 + c.

(** [neighbors.sort((a, b) => a - b)]: the numbers in ascending order,
    every [undefined] after them. *)
Definition sort_numeric (l : list (option Z)) : list (option Z) :=
  (Some <$> merge_sort Z.le (omap id l))
  ++ filter (fun v => v = None) l.

(** ** Settings and catalogs *)

Record Settings : Type := {
  brightness : float;
  contrast : float;
  sharpness : float;
  deblur : float;
  denoise : float
}.

Record Resolution : Type := { dpi : float }.

Definition RESOLUTIONS : list Resolution :=
  [ {| dpi := 72 |}; {| dpi := 150 |}; {| dpi := 300 |}; {| dpi := 600 |} ].

Definition Balanced : Settings :=
  {| brightness := 1.0; contrast := 1.0; sharpness := 1.1; deblur := 0.5;
     denoise := 0.3 |}.
Definition Clarity : Settings :=
  {| brightness := 1.05; contrast := 1.1; sharpness := 1.4; deblur := 0.8;
     denoise := 0.4 |}.
Definition HDR : Settings :=
  {| brightness := 1.15; contrast := 1.3; sharpness := 1.2; deblur := 0.6;
     denoise := 0.5 |}.
Definition AI_Enhance : Settings :=
  {| brightness := 1.1; contrast := 1.2; sharpness := 1.5; deblur := 1.0;
     denoise := 0.7 |}.

Definition ENHANCEMENT_PRESETS : list Settings :=
  [Balanced; Clarity; HDR; AI_Enhance].

(** ** Outcomes and the 2D context *)

Inductive DOMException : Type := IndexSizeError.

(** What running a piece of the program gives: a value, an exception, or
    a loop that never ends. *)
Inductive outcome (A : Type) : Type :=
| Done (a : A)
| Throws (e : DOMException)
| Diverges.
Arguments Done {A} a.
Arguments Throws {A} e.
Arguments Diverges {A}.

Definition outcome_bind {A B : Type} (m : outcome A) (k : A -> outcome B)
  : outcome B :=
  match m with
  | Done a => k a
  | Throws e => Throws e
  | Diverges => Diverges
  end.

Record ImageData : Type := {
  idata_width : Z;
  idata_height : Z;
  idata : list Z
}.

Record Canvas : Type := {
  canvas_width : Z;
  canvas_height : Z;
  bitmap : list Z
}.

(** A computation on the canvas behind a [CanvasRenderingContext2D]. *)
Definition ctxM (A : Type) : Type := Canvas -> outcome (A * Canvas).

Definition ret {A : Type} (a : A) : ctxM A := fun cv => Done (a, cv).

Definition bind {A B : Type} (m : ctxM A) (k : A -> ctxM B) : ctxM B :=
  fun cv =>
    match m cv with
    | Done (a, cv') => k a cv'
    | Throws e => Throws e
    | Diverges => Diverges
    end.

Definition lift {A : Type} (o : outcome A) : ctxM A :=
  fun cv => outcome_bind o (fun a => Done (a, cv)).

Notation "x <- m ;; k" := (bind m (fun x => k))
  (at level 100, m at next level, right associativity).
Notation "m ;;; k" := (bind m (fun _ => k))
  (at level 100, right associativity).

Definition when (b : bool) (m : ctxM unit) : ctxM unit :=
  if b then m else ret tt.

(** [ctx.getImageData(0, 0, sw, sh)].  Every call of the program passes
    the canvas's own width and height, so the rectangle is the whole
    bitmap; a zero width or height throws [IndexSizeError]. *)
Definition getImageData (sw sh : Z) : ctxM ImageData :=
  fun cv =>
    if (sw =? 0) || (sh =? 0) then Throws IndexSizeError
    else Done ({| idata_width := sw; idata_height := sh;
                  idata := bitmap cv |}, cv).

(** [ctx.putImageData(imageData, 0, 0)] *)
Definition putImageData (imageData : ImageData) : ctxM unit :=
  fun cv =>
    Done (tt, {| canvas_width := canvas_width cv;
                 canvas_height := canvas_height cv;
                 bitmap := idata imageData |}).

Definition with_data (imageData : ImageData) (data : list Z) : ImageData :=
  {| idata_width := idata_width imageData;
     idata_height := idata_height imageData;
     idata := data |}.

(** ** applyDenoise *)

(** The inner [ky]/[kx] loops: the channel values of the window, pushed
    in row order. *)
Definition denoise_neighbors (tempData : list Z) (width radius x y c : Z)
  : list (option Z) :=
  for_loop (- radius) (radius + 1) (fun ky =>
    for_loop (- radius) (radius + 1) (fun kx neighbors =>
      let currentIdx := pixel_index width (x + kx) (y + ky) c in
      neighbors ++ [byte_at tempData currentIdx])) [].

(** [neighbors[Math.floor(neighbors.length / 2)]] after the sort. *)
Definition median_of (neighbors : list (option Z)) : option Z :=
  let sorted := sort_numeric neighbors in
  mjoin (sorted !! (length sorted / 2)%nat).

Definition denoise_value (tempData : list Z) (width radius : Z)
  (strength : float) (x y c : Z) : float :=
  let idx := pixel_index width x y c in
  let median := median_of (denoise_neighbors tempData width radius x y c) in
  (u8_get tempData idx * (1 - strength) + to_number median * strength)%float.

(** The three nested loops over [y], [x] and [c], for an integer radius. *)
Definition denoise_loops (tempData : list Z) (width height radius : Z)
  (strength : float) (data : list Z) : list Z :=
  for_loop radius (height - radius) (fun y =>
    for_loop radius (width - radius) (fun x =>
      for_loop 0 3 (fun c data =>
        let idx := pixel_index width x y c in
        u8_set data idx (denoise_value tempData width radius strength x y c))))
    data.

(** The body of [applyDenoise] between [getImageData] and [putImageData].
    With a NaN or [+Infinity] radius the test [y < height - radius] fails
    at once; with [-Infinity] it never fails.  The counters [y] and [x]
    are integers here, which is what the program computes in binary64
    for every radius above [-2^52] on an image that a canvas can hold;
    for a finite radius below [-2^52] (a strength that the guard
    [strength > 0] of the caller never lets through) [y++] and [x++] stop
    advancing in binary64 and the program loops, which this definition
    does not follow. *)
Definition denoise_pass (width height : Z) (strength : float)
  (data : list Z) : outcome (list Z) :=
  let tempData := data in
  match Math_ceil (strength * 2) with
  | CeilInt radius =>
      Done (denoise_loops tempData width height radius strength data)
  | CeilNaN | CeilInf false => Done data
  | CeilInf true => Diverges
  end.

Definition applyDenoise (width height : Z) (strength : float) : ctxM unit :=
  imageData <- getImageData width height ;;
  data <- lift (denoise_pass width height strength (idata imageData)) ;;
  putImageData (with_data imageData data).

(** ** applyDeblur *)

(** The inner loops: [sum] and [count] over the window. *)
Definition deblur_sum_count (tempData : list Z) (width radius x y c : Z)
  : float * Z :=
  for_loop (- radius) (radius + 1) (fun ky =>
    for_loop (- radius) (radius + 1) (fun kx '(sum, count) =>
      let currentIdx := pixel_index width (x + kx) (y + ky) c in
      ((sum + u8_get tempData currentIdx)%float, count + 1)))
    (0%float, 0).

Definition deblur_avg (tempData : list Z) (width radius x y c : Z) : float :=
  let '(sum, count) := deblur_sum_count tempData width radius x y c in
  (sum / of_int count)%float.

Definition deblur_diff (tempData : list Z) (width radius x y c : Z) : float :=
  (u8_get tempData (pixel_index width x y c)
   - deblur_avg tempData width radius x y c)%float.

Definition deblur_threshold : float := 10.

Definition deblur_store (tempData : list Z) (width radius : Z)
  (amount : float) (x y c : Z) (data : list Z) : list Z :=
  let idx := pixel_index width x y c in
  let diff := deblur_diff tempData width radius x y c in
  if (deblur_threshold <? Math_abs diff)%float then
    u8_set data idx
      (Math_min 255 (Math_max 0 (u8_get tempData idx + diff * amount)%float))
  else data.

Definition deblur_loops (tempData : list Z) (width height radius : Z)
  (amount : float) (data : list Z) : list Z :=
  for_loop radius (height - radius) (fun y =>
    for_loop radius (width - radius) (fun x =>
      for_loop 0 3 (fun c data =>
        deblur_store tempData width radius amount x y c data)))
    data.

(** The body of [applyDeblur] between [getImageData] and [putImageData];
    the radius and the counters as in [denoise_pass], with the same
    limit: a finite radius below [-2^52] is not followed. *)
Definition deblur_pass (width height : Z) (strength : float)
  (data : list Z) : outcome (list Z) :=
  let tempData := data in
  let amount := (strength * 1.5)%float in
  match Math_ceil (strength * 3) with
  | CeilInt radius =>
      Done (deblur_loops tempData width height radius amount data)
  | CeilNaN | CeilInf false => Done data
  | CeilInf true => Diverges
  end.

Definition applyDeblur (width height : Z) (strength : float) : ctxM unit :=
  imageData <- getImageData width height ;;
  data <- lift (deblur_pass width height strength (idata imageData)) ;;
  putImageData (with_data imageData data).

(** ** applyImageEnhancements *)

(** [Math.min(255, data[i + j] * settings.brightness)] *)
Definition brightness_value (settings : Settings) (v : float) : float :=
  Math_min 255 (v * brightness settings)%float.

(** [Math.min(255, ((channel / 255 - 0.5) * settings.contrast + 0.5) * 255)] *)
Definition contrast_value (settings : Settings) (channel : float) : float :=
  Math_min 255
    (((channel / 255 - 0.5) * contrast settings + 0.5) * 255)%float.

(** The brightness and contrast loop over [i], in steps of 4. *)
Definition tone_pixel (settings : Settings) (i : Z) (data : list Z) : list Z :=
  let data :=
    for_loop 0 3 (fun j data =>
      u8_set data (i + j) (brightness_value settings (u8_get data (i + j))))
      data in
  for_loop 0 3 (fun j data =>
    let channel := u8_get data (i + j) in
    u8_set data (i + j) (contrast_value settings channel)) data.

Definition tone_pass (settings : Settings) (data : list Z) : list Z :=
  for_step 0 (Z.of_nat (length data)) 4 (tone_pixel settings) data.

Definition sharpen_kernel (sharpenStrength : float) : list (list float) :=
  [ [-1; -1; -1];
    [-1; 9 + sharpenStrength; -1];
    [-1; -1; -1] ]%float.

(** [kernel[r][k]] *)
Definition kernel_at (kernel : list (list float)) (r k : Z) : float :=
  if (r <? 0) || (k <? 0) then nan
  else
    match kernel !! Z.to_nat r with
    | Some row => default nan (row !! Z.to_nat k)
    | None => nan
    end.

Definition sharpen_sum (tempData : list Z) (kernel : list (list float))
  (width x y c : Z) : float :=
  for_loop (-1) 2 (fun ky =>
    for_loop (-1) 2 (fun kx sum =>
      let idx := pixel_index width (x + kx) (y + ky) c in
      (sum + u8_get tempData idx * kernel_at kernel (ky + 1) (kx + 1))%float))
    0%float.

Definition sharpen_loops (tempData : list Z) (kernel : list (list float))
  (width height : Z) (data : list Z) : list Z :=
  for_loop 1 (height - 1) (fun y =>
    for_loop 1 (width - 1) (fun x =>
      for_loop 0 3 (fun c data =>
        let sum := sharpen_sum tempData kernel width x y c in
        let idx := pixel_index width x y c in
        u8_set data idx (Math_min 255 (Math_max 0 sum)))))
    data.

(** The sharpening block, guard included. *)
Definition sharpen_pass (width height : Z) (settings : Settings)
  (data : list Z) : list Z :=
  if (1 <? sharpness settings)%float then
    let sharpenStrength := ((sharpness settings - 1) * 0.8)%float in
    let kernel := sharpen_kernel sharpenStrength in
    let tempData := data in
    sharpen_loops tempData kernel width height data
  else data.

Definition applyImageEnhancements (width height : Z) (settings : Settings)
  : ctxM unit :=
  when (0 <? denoise settings)%float
    (applyDenoise width height (denoise settings)) ;;;
  when (0 <? deblur settings)%float
    (applyDeblur width height (deblur settings)) ;;;
  imageData <- getImageData width height ;;
  let data := idata imageData in
  let data := tone_pass settings data in
  let data := sharpen_pass width height settings data in
  putImageData (with_data imageData data).

(** ** enhanceImage *)

(** A decoded image: [img.width], [img.height] and its RGBA pixels. *)
Record Image : Type := {
  img_width : Z;
  img_height : Z;
  img_pixels : list Z
}.

(** [canvas.width = v] and [canvas.height = v]: the attribute is an
    [unsigned long] limited to [2^31 - 1], above which it takes its
    default (300 for the width, 150 for the height). *)
Definition set_dimension (default : Z) (v : float) : Z :=
  let n := ToUnsignedLong v in
  if 2147483647 <? n then default else n.

(** [ctx.drawImage(img, 0, 0, dw, dh)] with smoothing of quality 'high',
    on the new canvas: the bitmap it leaves.  The interpolation is the
    browser's. *)
Definition Resampler : Type := Image -> Z -> Z -> list Z.

(** The body of [img.onload], up to [canvas.toDataURL]. *)
Definition resample (drawImage : Resampler) (img : Image)
  (resolution : Resolution) : Canvas :=
  let scaleFactor := (dpi resolution / 72)%float in
  let width := set_dimension 300 (of_int (img_width img) * scaleFactor) in
  let height := set_dimension 150 (of_int (img_height img) * scaleFactor) in
  {| canvas_width := width; canvas_height := height;
     bitmap := drawImage img width height |}.

Definition onload (drawImage : Resampler) (img : Image)
  (resolution : Resolution) (settings : Settings) : outcome Canvas :=
  let canvas := resample drawImage img resolution in
  outcome_bind
    (applyImageEnhancements (canvas_width canvas) (canvas_height canvas)
       settings canvas)
    (fun r => Done (snd r)).

(** The component state that [enhanceImage] reads and writes.  [image] is
    a data URL in the program; the state here keeps the image that the
    URL decodes to when [img.src = image] loads it. *)
Record AppState : Type := {
  image : option Image;
  isProcessing : bool;
  selectedResolution : Resolution;
  selectedPreset : Settings
}.

(** How a call of [enhanceImage] can end for its caller: the promise is
    fulfilled; it is rejected with an error; or the [onload] handler
    threw, [resolve] is never called and the promise stays pending, the
    exception going to the event loop; or the handler never returns.
    The promise of [enhanceImage] is built from [resolve] alone. *)
Inductive Completion : Type :=
| Fulfilled (st : AppState)
| Rejected (st : AppState) (e : DOMException)
| Pending (st : AppState) (uncaught : DOMException)
| NoReturn.

Definition set_processing (b : bool) (st : AppState) : AppState :=
  {| image := image st; isProcessing := b;
     selectedResolution := selectedResolution st;
     selectedPreset := selectedPreset st |}.

Definition set_image (i : Image) (st : AppState) : AppState :=
  {| image := Some i; isProcessing := isProcessing st;
     selectedResolution := selectedResolution st;
     selectedPreset := selectedPreset st |}.

(** [canvas.toDataURL('image/jpeg', 0.95)], as the image that the data
    URL decodes to.  The encoding is the browser's: JPEG is lossy and has
    no alpha channel, so the image stored is not the bitmap of the
    canvas. *)
Definition Encoder : Type := Canvas -> Image.

Definition enhanceImage (drawImage : Resampler) (toDataURL : Encoder)
  (st : AppState) : Completion :=
  match image st with
  | None => Fulfilled st
  | Some img =>
      let st := set_processing true st in
      match onload drawImage img (selectedResolution st) (selectedPreset st)
      with
      | Done cv =>
          Fulfilled (set_processing false (set_image (toDataURL cv) st))
      | Throws e => Pending st e
      | Diverges => NoReturn
      end
  end.

(** * Specification *)

(** The vocabulary of the statements: buffers and windows, what each
    filter has to write, the stages in their specified order, and the
    inputs of the examples. *)

(** ** Buffers and windows *)

Definition is_byte (b : Z) : bool := (0 <=? b) && (b <=? 255).

(** The [data] of an [ImageData] of a [width] by [height] canvas: four
    bytes for every pixel. *)
Record buffer_of (width height : Z) (data : list Z) : Prop := {
  buffer_width : 0 <= width;
  buffer_height : 0 <= height;
  buffer_length : Z.of_nat (length data) = width * height * 4;
  buffer_bytes : forallb is_byte data = true
}.

(** The pixel [(x, y)] has its whole [(2r+1)] by [(2r+1)] window inside
    the image. *)
Definition full_window (width height r x y : Z) : Prop :=
  r <= x < width - r /\ r <= y < height - r.

(** The indices of channel [c] in the window of [(x, y)], row by row, and
    the values found there. *)
Definition window_cells (width r x y c : Z) : list Z :=
  ky ← seqZ (- r) (2 * r + 1); kx ← seqZ (- r) (2 * r + 1);
  [pixel_index width (x + kx) (y + ky) c].

Definition window_values (data : list Z) (width r x y c : Z) : list Z :=
  omap (byte_at data) (window_cells width r x y c).

(** [clamp(x, 0, 255)], as the filters write it:
    [Math.min(255, Math.max(0, x))]. *)
Definition clamp_0_255 (x : float) : float := Math_min 255 (Math_max 0 x).

(** ** Denoise *)

(** What [applyDenoise] does to a buffer, for the radius
    [r = ceil(strength * 2)]: a pixel with a full window receives the blend
    of its value with the median of the sorted window values of the
    snapshot; the pixels within [r] of a border keep their bytes. *)
Definition denoise_spec (width height : Z) (strength : float)
  (data data' : list Z) : Prop :=
  length data' = length data /\
  match Math_ceil (strength * 2) with
  | CeilInt r =>
      0 <= r /\
      (forall x y c,
         full_window width height r x y -> 0 <= c < 3 ->
         exists original sorted median,
           byte_at data (pixel_index width x y c) = Some original /\
           Sorted Z.le sorted /\
           sorted ≡ₚ window_values data width r x y c /\
           Z.of_nat (length sorted) = (2 * r + 1) * (2 * r + 1) /\
           sorted !! (length sorted / 2)%nat = Some median /\
           byte_at data' (pixel_index width x y c) =
             Some (ToUint8Clamp (of_int original * (1 - strength)
                                 + of_int median * strength)%float)) /\
      (forall x y c,
         0 <= x < width -> 0 <= y < height -> 0 <= c < 4 ->
         ~ full_window width height r x y ->
         byte_at data' (pixel_index width x y c) =
           byte_at data (pixel_index width x y c))
  | _ => data' = data
  end.

(** ** Deblur *)

(** The local mean: the window values added up in reading order, divided
    by their number. *)
Definition window_sum (values : list Z) : float :=
  fold_left (fun sum v => (sum + of_int v)%float) values 0%float.

Definition window_mean (data : list Z) (width r x y c : Z) : float :=
  let values := window_values data width r x y c in
  (window_sum values / of_int (Z.of_nat (length values)))%float.

(** What [applyDeblur] does to a buffer, for [radius = ceil(strength * 3)],
    [amount = strength * 1.5] and the threshold 10. *)
Definition deblur_spec (width height : Z) (strength : float)
  (data data' : list Z) : Prop :=
  length data' = length data /\
  match Math_ceil (strength * 3) with
  | CeilInt radius =>
      0 <= radius /\
      (forall x y c,
         full_window width height radius x y -> 0 <= c < 3 ->
         exists original,
           byte_at data (pixel_index width x y c) = Some original /\
           Z.of_nat (length (window_values data width radius x y c))
             = (2 * radius + 1) * (2 * radius + 1) /\
           let amount := (strength * 1.5)%float in
           let threshold := 10%float in
           let diff :=
             (of_int original - window_mean data width radius x y c)%float in
           byte_at data' (pixel_index width x y c) =
             if (threshold <? Math_abs diff)%float
             then Some (ToUint8Clamp
                          (clamp_0_255 (of_int original + diff * amount)%float))
             else Some original) /\
      (forall x y c,
         0 <= x < width -> 0 <= y < height -> 0 <= c < 4 ->
         ~ full_window width height radius x y ->
         byte_at data' (pixel_index width x y c) =
           byte_at data (pixel_index width x y c))
  | _ => data' = data
  end.

(** ** Tone adjustment *)

(** The two steps of the tone stage on one byte, with the clamp written
    out: [clamp(v * brightness, 0, 255)], then
    [clamp(((v / 255 - 0.5) * contrast + 0.5) * 255, 0, 255)]. *)
Definition brightness_step (b : float) (v : Z) : Z :=
  ToUint8Clamp (clamp_0_255 (of_int v * b)%float).

Definition contrast_step (k : float) (v : Z) : Z :=
  ToUint8Clamp (clamp_0_255 (((of_int v / 255 - 0.5) * k + 0.5) * 255)%float).

Definition tone_byte (settings : Settings) (v : Z) : Z :=
  contrast_step (contrast settings) (brightness_step (brightness settings) v).

(** ** Sharpen *)

(** The kernel, row by row, and the weighted sum of a window, added up in
    reading order. *)
Definition kernel_weights (boost : float) : list float :=
  [-1; -1; -1; -1; 9 + boost; -1; -1; -1; -1]%float.

Definition convolve (values : list Z) (weights : list float) : float :=
  fold_left (fun sum '(v, w) => (sum + of_int v * w)%float)
    (zip values weights) 0%float.

(** [boost = (sharpness - 1) * 0.8] *)
Definition sharpen_boost (settings : Settings) : float :=
  ((sharpness settings - 1) * 0.8)%float.

(** What the sharpening block does when it runs. *)
Definition sharpen_spec (width height : Z) (boost : float)
  (data data' : list Z) : Prop :=
  length data' = length data /\
  (forall x y c,
     full_window width height 1 x y -> 0 <= c < 3 ->
     length (window_values data width 1 x y c) = 9%nat /\
     byte_at data' (pixel_index width x y c) =
       Some (ToUint8Clamp
               (clamp_0_255
                  (convolve (window_values data width 1 x y c)
                     (kernel_weights boost))))) /\
  (forall x y c,
     0 <= x < width -> 0 <= y < height -> 0 <= c < 4 ->
     ~ full_window width height 1 x y ->
     byte_at data' (pixel_index width x y c) =
       byte_at data (pixel_index width x y c)).

(** On a window whose nine values are [v]: the byte of
    [clamp(v * (1 + boost), 0, 255)], and the byte that the kernel
    gives. *)
Definition scaled_byte (boost : float) (v : Z) : Z :=
  ToUint8Clamp (clamp_0_255 (of_int v * (1 + boost))%float).

Definition uniform_byte (boost : float) (v : Z) : Z :=
  ToUint8Clamp (clamp_0_255 (convolve (replicate 9 v) (kernel_weights boost))).

(** ** The stages and their order *)

Inductive Stage : Type := Denoise | Deblur | ToneAdjust | Sharpen.

(** The order of the specification. *)
Definition stage_order : list Stage := [Denoise; Deblur; ToneAdjust; Sharpen].

(** A stage runs iff its guard holds. *)
Definition stage_runs (settings : Settings) (stage : Stage) : bool :=
  match stage with
  | Denoise => (0 <? denoise settings)%float
  | Deblur => (0 <? deblur settings)%float
  | ToneAdjust => true
  | Sharpen => (1 <? sharpness settings)%float
  end.

Definition stage_body (width height : Z) (settings : Settings)
  (stage : Stage) (data : list Z) : outcome (list Z) :=
  match stage with
  | Denoise => denoise_pass width height (denoise settings) data
  | Deblur => deblur_pass width height (deblur settings) data
  | ToneAdjust => Done (tone_pass settings data)
  | Sharpen =>
      Done (sharpen_loops data (sharpen_kernel (sharpen_boost settings))
              width height data)
  end.

Definition run_stage (width height : Z) (settings : Settings)
  (acc : outcome (list Z)) (stage : Stage) : outcome (list Z) :=
  outcome_bind acc (fun data =>
    if stage_runs settings stage
    then stage_body width height settings stage data
    else Done data).

(** The stages of a list, one after the other, each on the output of the
    one before. *)
Definition run_stages (width height : Z) (settings : Settings)
  (stages : list Stage) (data : list Z) : outcome (list Z) :=
  fold_left (run_stage width height settings) stages (Done data).

Definition with_bitmap (cv : Canvas) (data : list Z) : Canvas :=
  {| canvas_width := canvas_width cv; canvas_height := canvas_height cv;
     bitmap := data |}.

(** ** Alpha and the range of the bytes *)

(** What a stage may do to a buffer: keep a byte, or store a converted
    number into a colour channel. *)
Definition stage_effect (data data' : list Z) : Prop :=
  length data' = length data /\
  forall i, byte_at data' i = byte_at data i \/
            (i mod 4 <> 3 /\ exists v, byte_at data' i = Some (ToUint8Clamp v)).

(** The alpha bytes are the bytes before the stage. *)
Definition alpha_kept (data data' : list Z) : Prop :=
  forall i, i mod 4 = 3 -> byte_at data' i = byte_at data i.

(** A byte that the stage changed is a colour byte within [0, 255]. *)
Definition written_in_range (data data' : list Z) : Prop :=
  forall i b, byte_at data' i = Some b -> byte_at data' i <> byte_at data i ->
              i mod 4 <> 3 /\ 0 <= b <= 255.

Definition stage_keeps (data data' : list Z) : Prop :=
  length data' = length data /\ alpha_kept data data' /\
  written_in_range data data'.

(** ** Loop nests that only store *)

(** A pass whose stores depend on the snapshot alone is a sequence of
    independent conditional stores: one store, *)
Definition store_one {K : Type} (key : K -> Z) (enabled : K -> bool)
  (val : K -> float) (d : list Z) (p : K) : list Z :=
  if enabled p then u8_set d (key p) (val p) else d.

(** the [y], [x], [c] loop nest of the three filters over the pixels
    [x0 <= x < x1], [y0 <= y < y1], *)
Definition raster_store (width : Z) (enabled : Z -> Z -> Z -> bool)
  (value : Z -> Z -> Z -> float) (x y c : Z) (data : list Z) : list Z :=
  if enabled x y c then u8_set data (pixel_index width x y c) (value x y c)
  else data.

Definition raster (width : Z) (enabled : Z -> Z -> Z -> bool)
  (value : Z -> Z -> Z -> float) (y0 y1 x0 x1 : Z) (data : list Z) : list Z :=
  for_loop y0 y1 (fun y =>
    for_loop x0 x1 (fun x =>
      for_loop 0 3 (fun c => raster_store width enabled value x y c))) data.

(** and the cells that the nest visits, in its order, with what it stores
    in each. *)
Definition raster_cells (y0 y1 x0 x1 : Z) : list (Z * Z * Z) :=
  y ← seqZ y0 (y1 - y0); x ← seqZ x0 (x1 - x0); c ← seqZ 0 3; [(x, y, c)].

Definition cell_key (width : Z) (p : Z * Z * Z) : Z :=
  let '(x, y, c) := p in pixel_index width x y c.

Definition cell_enabled (enabled : Z -> Z -> Z -> bool) (p : Z * Z * Z)
  : bool :=
  let '(x, y, c) := p in enabled x y c.

Definition cell_value (value : Z -> Z -> Z -> float) (p : Z * Z * Z)
  : float :=
  let '(x, y, c) := p in value x y c.

(** The steps of the inner loops of [applyDeblur] and of the sharpening
    block, on the list of the window cells. *)
Definition sum_count_step (tempData : list Z) (acc : float * Z) (i : Z)
  : float * Z :=
  let '(sum, count) := acc in ((sum + u8_get tempData i)%float, count + 1).

Definition weighted_step (tempData : list Z) (sum : float) (p : Z * float)
  : float :=
  let '(i, w) := p in (sum + u8_get tempData i * w)%float.

(** The invariant of the [i] loop of the tone stage after [k] pixels. *)
Definition tone_done (settings : Settings) (data : list Z) (k : Z)
  (d : list Z) : Prop :=
  length d = length data /\
  forall j, byte_at d j =
              if decide (j < 4 * k /\ j mod 4 <> 3)
              then tone_byte settings <$> byte_at data j
              else byte_at data j.

(** ** Sample inputs *)

(** A 3 by 3 image, with alpha values of all kinds. *)
Definition sample_3x3 : list Z :=
  [ 10;  20;  30; 255;   200; 100;  50; 255;    90;  80;  70; 128;
    40; 250;  60; 255;   120;   0; 255;  64;    15;  25;  35; 255;
   255; 255; 255; 255;     0;   0;   0;   0;    77; 177;  17; 200 ].

Definition unsharpened : Settings :=
  {| brightness := 1.1; contrast := 1.2; sharpness := 1.0; deblur := 0;
     denoise := 0 |}.

(** A resampler for the examples: the nearest source pixel. *)
Definition nearest_sample : Resampler :=
  fun img width height =>
    let pick i :=
      let p := i / 4 in
      let x := (p mod width) * img_width img / width in
      let y := (p / width) * img_height img / height in
      default 0 (byte_at (img_pixels img)
                   (pixel_index (img_width img) x y (i mod 4))) in
    pick <$> seqZ 0 (width * height * 4).

(** An encoder for the examples: the colours as they are, every alpha
    byte at 255. *)
Definition opaque_sample : Encoder :=
  fun cv =>
    {| img_width := canvas_width cv; img_height := canvas_height cv;
       img_pixels :=
         imap (fun i b => if Z.of_nat i mod 4 =? 3 then 255 else b)
           (bitmap cv) |}.

Definition image_3x3 : Image :=
  {| img_width := 3; img_height := 3; img_pixels := sample_3x3 |}.

Definition image_7x7 : Image :=
  {| img_width := 7; img_height := 7;
     img_pixels := concat (replicate 49 [200; 100; 50; 255]) |}.

Definition image_7x3 : Image :=
  {| img_width := 7; img_height := 3;
     img_pixels := concat (replicate 21 [200; 100; 50; 255]) |}.

Definition image_0x5 : Image :=
  {| img_width := 0; img_height := 5; img_pixels := [] |}.

Definition state_0x5 : AppState :=
  {| image := Some image_0x5; isProcessing := false;
     selectedResolution := {| dpi := 150 |}; selectedPreset := Balanced |}.

(** ** Whole images *)

(** The image of one colour: [colour c] in channel [c] of every pixel. *)
Definition uniform_image (width height : Z) (colour : Z -> Z) : list Z :=
  (fun i => colour (i mod 4)) <$> seqZ 0 (width * height * 4).


(** The pixel [(x, y)] lies on the outermost ring of the image. *)
Definition on_border (width height x y : Z) : Prop :=
  x = 0 \/ y = 0 \/ x = width - 1 \/ y = height - 1.


(** The blend of [applyDenoise] on two bytes: the number, and the byte
    that the array keeps of it. *)
Definition blend_number (strength : float) (original median : Z) : float :=
  (of_int original * (1 - strength) + of_int median * strength)%float.

Definition denoise_blend (strength : float) (original median : Z) : Z :=
  ToUint8Clamp (blend_number strength original median).

(** A check that the store of [x] lies within [lo, hi]: on the numbers
    where that decides it, on the stored byte otherwise. *)
Definition bracket (lo hi : Z) (x : float) : bool :=
  (if (of_int lo <=? x)%float then true else lo <=? ToUint8Clamp x) &&
  (if (x <=? of_int hi)%float then true else ToUint8Clamp x <=? hi).


Definition neutral : Settings :=
  {| brightness := 1; contrast := 1; sharpness := 1; deblur := 0;
     denoise := 0 |}.

Definition sample_2x2 : list Z :=
  [ 10; 20; 30; 255;  200; 100; 50; 255;
    40; 250; 60; 128;  120; 0; 255; 64 ].

(** A 5 by 5 image, the smallest with a full window of radius 2. *)
Definition sample_5x5 : list Z :=
  (fun i => if i mod 4 =? 3 then 255 else (i * 37 + 11) mod 256)
    <$> seqZ 0 100.

Definition canvas_3x3 : Canvas :=
  {| canvas_width := 3; canvas_height := 3; bitmap := sample_3x3 |}.


(** The pixel [(x, y)] is off the outermost ring. *)
Definition interior (width height x y : Z) : bool :=
  (1 <=? x) && (x <? width - 1) && (1 <=? y) && (y <? height - 1).

(** The local mean of a window of [n] values [v]. *)
Definition uniform_mean (n : nat) (v : Z) : float :=
  (window_sum (replicate n v) / of_int (Z.of_nat n))%float.

(** The byte of channel [c] of a pixel after the four stages, on an image
    of the one colour [colour]. *)
Definition uniform_result (settings : Settings) (colour : Z -> Z)
  (inside : bool) (c : Z) : Z :=
  if c =? 3 then colour 3
  else if inside
       then uniform_byte (sharpen_boost settings)
              (tone_byte settings (colour c))
       else tone_byte settings (colour c).

Definition gray_128 (c : Z) : Z := if c =? 3 then 255 else 128.


(** A 7 by 7 image: gray (128) inside, black on the outermost ring. *)
Definition flat_centre_7x7 : list Z :=
  (fun i =>
     let p := i / 4 in
     if i mod 4 =? 3 then 255
     else if interior 7 7 (p mod 7) (p / 7) then 128 else 0)
    <$> seqZ 0 196.

(** * Properties *)

Example ToUint8Clamp_samples :
  map ToUint8Clamp
    [0.5; 1.5; 2.5; 254.5; 254.50001; 255.5; 300; -3; nan; infinity;
     neg_infinity; 0.49999; 127.4]%float
  = [0; 2; 2; 254; 255; 255; 255; 0; 0; 255; 0; 0; 127].
Proof. vm_compute. reflexivity. Qed.

Example Math_ceil_samples :
  map Math_ceil [0.6; 1.5; 3; 0; -0.5; -1.5; 0.9]%float
  = [CeilInt 1; CeilInt 2; CeilInt 3; CeilInt 0; CeilInt 0; CeilInt (-1);
     CeilInt 1].
Proof. vm_compute. reflexivity. Qed.

Example ToUnsignedLong_samples :
  map ToUnsignedLong [14.583333333333334; 0.5; 25; -1; nan]%float
  = [14; 0; 25; 4294967295; 0].
Proof. vm_compute. reflexivity. Qed.

Example Math_round_samples :
  map Math_round [14.583333333333334; 0.5; 25; 2.5; 2.4999; -0.5]%float
  = [15; 1; 25; 3; 2; 0].
Proof. vm_compute. reflexivity. Qed.

(** ** Numbers *)

Section NumberFacts.

Lemma round_half_even_nonneg n d : 0 <= n -> 0 < d -> 0 <= round_half_even n d.
Proof.
  intros Hn Hd. unfold round_half_even.
  assert (0 <= n / d) by (apply Z.div_pos; lia).
  repeat case_match; lia.
Qed.

Lemma ToUint8Clamp_range x : 0 <= ToUint8Clamp x <= 255.
Proof.
  unfold ToUint8Clamp.
  destruct (Prim2SF x) as [s|[]| |[] m e]; try lia.
  destruct (0 <=? e) eqn:He.
  - assert (0 < 2 ^ e) by (apply Z.pow_pos_nonneg; lia). nia.
  - assert (0 < 2 ^ (- e)) by (apply Z.pow_pos_nonneg; lia).
    pose proof (round_half_even_nonneg (Z.pos m) (2 ^ (- e))). lia.
Qed.

(** NaN is the only number that differs from itself. *)
Lemma is_nan_spec x :
  is_nan x = match Prim2SF x with S754_nan => true | _ => false end.
Proof.
  unfold is_nan. rewrite FloatAxioms.eqb_spec. unfold SFeqb, SFcompare.
  destruct (Prim2SF x) as [s|[]| |[] m e]; try reflexivity.
  all: rewrite Z.compare_refl, Pos.compare_cont_refl; reflexivity.
Qed.

Lemma Prim2SF_0 : Prim2SF 0 = S754_zero false.
Proof. reflexivity. Qed.

Lemma Prim2SF_255 : Prim2SF 255 = S754_finite false 8972014882652160 (-45).
Proof. vm_compute. reflexivity. Qed.

(** A number that is not above zero is stored as 0. *)
Lemma ToUint8Clamp_not_positive x :
  (0 <? x)%float = false -> ToUint8Clamp x = 0.
Proof.
  rewrite FloatAxioms.ltb_spec, Prim2SF_0. unfold ToUint8Clamp, SFltb, SFcompare.
  destruct (Prim2SF x) as [s|[]| |[] m e]; try reflexivity; discriminate.
Qed.

Lemma not_positive_below_255 x :
  (0 <? x)%float = false -> (255 <? x)%float = false.
Proof.
  rewrite !FloatAxioms.ltb_spec, Prim2SF_0, Prim2SF_255. unfold SFltb, SFcompare.
  destruct (Prim2SF x) as [s|[]| |[] m e]; try reflexivity; discriminate.
Qed.

(** In a store, the lower clamp of [Math.max(0, _)] is the array's own. *)
Lemma store_min_255 x :
  ToUint8Clamp (Math_min 255 x) = ToUint8Clamp (clamp_0_255 x).
Proof.
  unfold clamp_0_255, Math_max.
  change (is_nan 0) with false. change (get_sign 0) with false. cbn [orb].
  destruct (is_nan x) eqn:Hnan.
  - unfold Math_min. change (is_nan 255) with false. rewrite Hnan.
    reflexivity.
  - destruct (0 <? x)%float eqn:Hpos; [reflexivity|].
    assert ((if (x <? 0)%float then 0%float else 0%float) = 0%float) as ->
      by (destruct (x <? 0)%float; reflexivity).
    assert (ToUint8Clamp (Math_min 255 0) = 0) as -> by reflexivity.
    unfold Math_min. change (is_nan 255) with false. rewrite Hnan. cbn [orb].
    rewrite (not_positive_below_255 x Hpos).
    change (get_sign 255) with false.
    destruct (x <? 255)%float; apply ToUint8Clamp_not_positive, Hpos.
Qed.

End NumberFacts.

Section RadiusFacts.

Lemma ceil_of_positive m e : 0 <= - floor_scaled (- Z.pos m) e.
Proof.
  unfold floor_scaled.
  assert (Z.shiftl (- Z.pos m) e < 0); [|lia].
  apply Z.shiftl_neg. lia.
Qed.

(** The radius of a positive strength: never negative, never
    [-Infinity]. *)
Lemma radius_of_positive (s k : float) mk ek :
  (0 <? s)%float = true ->
  Prim2SF k = S754_finite false mk ek ->
  match Math_ceil (s * k) with
  | CeilInt r => 0 <= r
  | CeilInf negative => negative = false
  | CeilNaN => True
  end.
Proof.
  intros Hs Hk. unfold Math_ceil. rewrite mul_spec, Hk.
  rewrite FloatAxioms.ltb_spec, Prim2SF_0 in Hs.
  unfold SFltb, SFcompare in Hs.
  destruct (Prim2SF s) as [z|[]| |[] m e]; try discriminate Hs.
  - reflexivity.
  - unfold SF64mul, SFmul, binary_round_aux. cbn [xorb].
    destruct (shr_fexp _ _ _ _ _) as [mrs e1].
    destruct (shr_fexp _ _ _ _ _) as [mrs' e2].
    destruct (shr_m mrs') as [|p|p]; [lia| |exact I].
    destruct (e2 <=? _); [apply ceil_of_positive|reflexivity].
Qed.

End RadiusFacts.

(** ** Arrays *)

Section ArrayFacts.
Implicit Types (a : list Z) (i j : Z) (v : float).

Lemma length_u8_set a i v : length (u8_set a i v) = length a.
Proof. unfold u8_set. case_match; [done|apply length_insert]. Qed.

Lemma byte_at_Some a i b :
  byte_at a i = Some b -> 0 <= i < Z.of_nat (length a).
Proof.
  unfold byte_at. destruct (i <? 0) eqn:Hi; [done|].
  intros H%lookup_lt_Some. lia.
Qed.

Lemma byte_at_in_range a i :
  0 <= i < Z.of_nat (length a) -> is_Some (byte_at a i).
Proof.
  intros Hi. unfold byte_at. destruct (i <? 0) eqn:E; [lia|].
  apply lookup_lt_is_Some. lia.
Qed.

Lemma byte_at_out_of_range a i :
  ~ (0 <= i < Z.of_nat (length a)) -> byte_at a i = None.
Proof.
  intros Hi. unfold byte_at. destruct (i <? 0) eqn:E; [done|].
  apply lookup_ge_None. lia.
Qed.

(** Reading after a store. *)
Lemma byte_at_u8_set a i v j :
  byte_at (u8_set a i v) j =
    if decide (j = i /\ 0 <= i < Z.of_nat (length a))
    then Some (ToUint8Clamp v) else byte_at a j.
Proof.
  unfold byte_at, u8_set.
  destruct (i <? 0) eqn:Hi, (j <? 0) eqn:Hj; case_decide; try done; try lia.
  - destruct_and!. subst j. apply list_lookup_insert_eq. lia.
  - destruct (decide (i = j)) as [->|Hne].
    + rewrite list_insert_ge by lia. done.
    + apply list_lookup_insert_ne. lia.
Qed.

Lemma byte_at_ext a a' :
  (forall i, byte_at a i = byte_at a' i) -> a = a'.
Proof.
  intros H. apply list_eq. intros n.
  specialize (H (Z.of_nat n)). unfold byte_at in H.
  destruct (Z.ltb_spec (Z.of_nat n) 0); [lia|].
  by rewrite Nat2Z.id in H.
Qed.

End ArrayFacts.

(** ** Loops *)

Section LoopFacts.
Context {S : Type}.
Implicit Types (body : Z -> S -> S) (s : S).

Lemma for_loop_empty lo hi body s : hi <= lo -> for_loop lo hi body s = s.
Proof. intros H. unfold for_loop. by rewrite seqZ_nil by lia. Qed.

Lemma for_loop_snoc lo hi body s :
  lo <= hi ->
  for_loop lo (hi + 1) body s = body hi (for_loop lo hi body s).
Proof.
  intros H. unfold for_loop.
  replace (hi + 1 - lo) with ((hi - lo) + 1) by lia.
  rewrite seqZ_app by lia. rewrite fold_left_app.
  replace (lo + (hi - lo)) with hi by lia. reflexivity.
Qed.

(** The invariant rule of [for]. *)
Lemma for_loop_invariant (P : Z -> S -> Prop) lo hi body s :
  lo <= hi ->
  P lo s ->
  (forall i t, lo <= i < hi -> P i t -> P (i + 1) (body i t)) ->
  P hi (for_loop lo hi body s).
Proof.
  intros Hle H0 Hstep.
  assert (forall n : nat, lo + Z.of_nat n <= hi ->
            P (lo + Z.of_nat n) (for_loop lo (lo + Z.of_nat n) body s)) as G.
  { induction n as [|n IH]; intros Hn.
    - rewrite Z.add_0_r, for_loop_empty by lia. done.
    - replace (lo + Z.of_nat (Datatypes.S n)) with (lo + Z.of_nat n + 1) by lia.
      rewrite for_loop_snoc by lia. apply Hstep; [lia|]. apply IH. lia. }
  specialize (G (Z.to_nat (hi - lo))).
  replace (lo + Z.of_nat (Z.to_nat (hi - lo))) with hi in G by lia.
  apply G. lia.
Qed.

Lemma for_loop_0_3 body s :
  for_loop 0 3 body s = body 2 (body 1 (body 0 s)).
Proof. reflexivity. Qed.

Lemma for_step_4 hi body s :
  for_step 0 hi 4 body s = for_loop 0 ((hi + 3) / 4) (fun k => body (4 * k)) s.
Proof.
  unfold for_step, for_loop.
  replace (hi - 0 + 4 - 1) with (hi + 3) by lia.
  replace ((hi + 3) / 4 - 0) with ((hi + 3) / 4) by lia. reflexivity.
Qed.

End LoopFacts.

(** ** Pixel indices *)

Section IndexFacts.

Lemma pixel_index_inj width x y c x' y' c' :
  0 <= x < width -> 0 <= x' < width -> 0 <= c < 4 -> 0 <= c' < 4 ->
  pixel_index width x y c = pixel_index width x' y' c' ->
  x = x' /\ y = y' /\ c = c'.
Proof.
  unfold pixel_index. intros Hx Hx' Hc Hc' H.
  assert (c = c') as -> by lia.
  assert (y * width + x = y' * width + x') as H' by lia.
  assert (y = y') as -> by nia.
  split; [lia|done].
Qed.

Lemma pixel_index_bounds width height x y c :
  0 <= x < width -> 0 <= y < height -> 0 <= c < 4 ->
  0 <= pixel_index width x y c < width * height * 4.
Proof. unfold pixel_index. intros. nia. Qed.

Lemma pixel_index_channel width x y c :
  0 <= c < 4 -> pixel_index width x y c mod 4 = c.
Proof.
  intros Hc. unfold pixel_index.
  rewrite Z.add_comm, Z.mod_add by lia. apply Z.mod_small. lia.
Qed.

(** Every index of the buffer is the index of one channel of one
    pixel. *)
Lemma pixel_index_decode width height i :
  0 < width -> 0 <= i < width * height * 4 ->
  exists x y c, 0 <= x < width /\ 0 <= y < height /\ 0 <= c < 4 /\
                i = pixel_index width x y c.
Proof.
  intros Hw Hi.
  exists ((i / 4) mod width), ((i / 4) / width), (i mod 4).
  pose proof (Z.mod_pos_bound i 4 ltac:(lia)).
  pose proof (Z.mod_pos_bound (i / 4) width ltac:(lia)).
  pose proof (Z.div_mod i 4 ltac:(lia)).
  pose proof (Z.div_mod (i / 4) width ltac:(lia)).
  assert (0 <= i / 4) by (apply Z.div_pos; lia).
  assert (0 <= i / 4 / width) by (apply Z.div_pos; lia).
  assert (i / 4 < width * height) by (apply Z.div_lt_upper_bound; lia).
  assert (i / 4 / width < height) by (apply Z.div_lt_upper_bound; lia).
  unfold pixel_index. repeat split; try lia.
Qed.

End IndexFacts.

(** ** Loop nests that only store *)

Section Stores.
Context {K : Type} (key : K -> Z) (enabled : K -> bool) (val : K -> float).
Local Abbreviation stores := (fold_left (store_one key enabled val)).

Lemma stores_length ps d : length (stores ps d) = length d.
Proof.
  revert d. induction ps as [|p ps IH]; intros d; [done|].
  cbn. rewrite IH. unfold store_one. case_match; [apply length_u8_set|done].
Qed.

Lemma stores_miss ps d i :
  (forall p, p ∈ ps -> enabled p = true -> key p <> i) ->
  byte_at (stores ps d) i = byte_at d i.
Proof.
  revert d. induction ps as [|p ps IH]; intros d H; [done|].
  cbn. rewrite IH by (intros; apply H; [by right|done]).
  unfold store_one. destruct (enabled p) eqn:E; [|done].
  rewrite byte_at_u8_set. case_decide as Hd; [|done].
  destruct Hd as [-> _]. exfalso. eapply H; [by left|done|done].
Qed.

Lemma stores_hit ps d p :
  p ∈ ps -> enabled p = true ->
  0 <= key p < Z.of_nat (length d) ->
  (forall q, q ∈ ps -> enabled q = true -> key q = key p -> val q = val p) ->
  byte_at (stores ps d) (key p) = Some (ToUint8Clamp (val p)).
Proof.
  induction ps as [|q ps IH] using rev_ind; intros Hin Hen Hr Hsame.
  { by apply elem_of_nil in Hin. }
  rewrite fold_left_app. cbn. unfold store_one at 1.
  destruct (enabled q) eqn:Eq.
  - rewrite byte_at_u8_set, stores_length.
    case_decide as Hd.
    + destruct Hd as [Hk _]. f_equal. f_equal.
      apply Hsame; [|done|done].
      apply elem_of_app. right. by apply list_elem_of_singleton.
    + apply IH; [|done|done|intros; apply Hsame; [apply elem_of_app; by left|done|done]].
      apply elem_of_app in Hin as [Hin|Hin]; [done|].
      apply list_elem_of_singleton in Hin as ->. exfalso. apply Hd. done.
  - apply IH; [|done|done|intros; apply Hsame; [apply elem_of_app; by left|done|done]].
    apply elem_of_app in Hin as [Hin|Hin]; [done|].
    apply list_elem_of_singleton in Hin as ->. congruence.
Qed.

(** A byte after the stores is the byte before them or a stored one. *)
Lemma stores_either ps d i :
  byte_at (stores ps d) i = byte_at d i \/
  exists p, p ∈ ps /\ key p = i /\
            byte_at (stores ps d) i
            = Some (ToUint8Clamp (val p)).
Proof.
  induction ps as [|q ps IH] using rev_ind; [by left|].
  rewrite fold_left_app. cbn. unfold store_one at 1 3.
  destruct (enabled q) eqn:Eq.
  - rewrite byte_at_u8_set. case_decide as Hd.
    + right. exists q. destruct Hd as [-> _].
      split; [|done]. apply elem_of_app. right. by apply list_elem_of_singleton.
    + destruct IH as [IH|(p & Hp & Hk & IH)]; [by left|].
      right. exists p. split; [|done]. apply elem_of_app. by left.
  - destruct IH as [IH|(p & Hp & Hk & IH)]; [by left|].
    right. exists p. split; [|done]. apply elem_of_app. by left.
Qed.

End Stores.

Section Raster.
Variables (width : Z) (enabled : Z -> Z -> Z -> bool)
  (value : Z -> Z -> Z -> float).
Local Abbreviation nest := (raster width enabled value).
Local Abbreviation cell_stores :=
  (store_one (cell_key width) (cell_enabled enabled) (cell_value value)).

Lemma elem_of_raster_cells y0 y1 x0 x1 x y c :
  (x, y, c) ∈ raster_cells y0 y1 x0 x1 <->
  y0 <= y < y1 /\ x0 <= x < x1 /\ 0 <= c < 3.
Proof.
  unfold raster_cells. rewrite list_elem_of_bind.
  setoid_rewrite list_elem_of_bind. setoid_rewrite list_elem_of_bind.
  setoid_rewrite elem_of_seqZ. setoid_rewrite list_elem_of_singleton.
  split.
  - intros (y' & (x' & (c' & Heq & Hc) & Hx) & Hy).
    injection Heq as -> -> ->. lia.
  - intros (Hy & Hx & Hc). exists y. split; [|lia].
    exists x. split; [|lia]. exists c. split; [done|lia].
Qed.

Lemma fold_left_bind {A B T : Type} (f : T -> B -> T) (g : A -> list B)
  (h : T -> A -> T) (l : list A) (t : T) :
  (forall t a, h t a = fold_left f (g a) t) ->
  fold_left h l t = fold_left f (l ≫= g) t.
Proof.
  intros Hh. revert t. induction l as [|a l IH]; intros t; [done|].
  cbn. rewrite fold_left_app, <- Hh. apply IH.
Qed.

Lemma raster_as_stores y0 y1 x0 x1 data :
  nest y0 y1 x0 x1 data =
  fold_left cell_stores
    (raster_cells y0 y1 x0 x1) data.
Proof.
  unfold raster, raster_cells, for_loop.
  apply fold_left_bind. intros t y.
  apply fold_left_bind. intros t' x.
  apply fold_left_bind. intros t'' c. reflexivity.
Qed.

Lemma raster_length y0 y1 x0 x1 data :
  length (nest y0 y1 x0 x1 data) = length data.
Proof. rewrite raster_as_stores. apply stores_length. Qed.

(** An index that no enabled store addresses keeps its byte. *)
Lemma raster_miss y0 y1 x0 x1 data i :
  (forall x y c, y0 <= y < y1 -> x0 <= x < x1 -> 0 <= c < 3 ->
                 enabled x y c = true -> pixel_index width x y c <> i) ->
  byte_at (nest y0 y1 x0 x1 data) i = byte_at data i.
Proof.
  intros H. rewrite raster_as_stores. apply stores_miss.
  intros [[x y] c] Hin Hen. apply elem_of_raster_cells in Hin.
  apply H; tauto.
Qed.

(** A pixel of the range receives its own value, and nothing else. *)
Lemma raster_hit y0 y1 x0 x1 data x y c :
  0 <= x0 -> x1 <= width ->
  y0 <= y < y1 -> x0 <= x < x1 -> 0 <= c < 3 ->
  0 <= pixel_index width x y c < Z.of_nat (length data) ->
  byte_at (nest y0 y1 x0 x1 data) (pixel_index width x y c) =
    if enabled x y c then Some (ToUint8Clamp (value x y c))
    else byte_at data (pixel_index width x y c).
Proof.
  intros Hx0 Hx1 Hy Hx Hc Hr.
  destruct (enabled x y c) eqn:Hen.
  - rewrite raster_as_stores.
    apply (stores_hit (cell_key width) (cell_enabled enabled)
             (cell_value value) _ _ (x, y, c));
      [by apply elem_of_raster_cells|done|done|].
    intros [[x' y'] c'] Hin _ Hk. apply elem_of_raster_cells in Hin.
    cbn in Hk. apply pixel_index_inj in Hk as (-> & -> & ->); [done|lia..].
  - apply raster_miss. intros x' y' c' Hy' Hx' Hc' Hen' Hk.
    apply pixel_index_inj in Hk as (-> & -> & ->); [congruence|lia..].
Qed.

End Raster.

(** ** Buffers and windows *)

Section WindowFacts.

Lemma fold_left_push {A B : Type} (h : list B -> A -> list B)
  (g : A -> list B) (l : list A) (t : list B) :
  (forall t a, h t a = t ++ g a) ->
  fold_left h l t = t ++ (l ≫= g).
Proof.
  intros Hh. revert t. induction l as [|a l IH]; intros t; cbn.
  - by rewrite app_nil_r.
  - rewrite IH, Hh, <- app_assoc. done.
Qed.

Lemma bind_fmap_in {A B C : Type} (k : B -> C) (f : A -> list C)
  (h : A -> list B) (l : list A) :
  (forall a, a ∈ l -> f a = k <$> h a) -> l ≫= f = k <$> (l ≫= h).
Proof.
  induction l as [|a l IH]; intros H; [done|].
  rewrite !bind_cons, fmap_app, H, IH; [done| |by left].
  intros; apply H; by right.
Qed.

Lemma fmap_defined {A B : Type} (f : A -> option B) (l : list A) :
  (forall a, a ∈ l -> is_Some (f a)) -> f <$> l = Some <$> omap f l.
Proof.
  induction l as [|a l IH]; intros H; [done|].
  destruct (H a) as [b Hb]; [by left|].
  cbn. rewrite Hb. cbn. rewrite IH; [done|]. intros; apply H; by right.
Qed.

Lemma omap_defined_length {A B : Type} (f : A -> option B) (l : list A) :
  (forall a, a ∈ l -> is_Some (f a)) -> length (omap f l) = length l.
Proof.
  intros H. rewrite <- (length_fmap Some), <- fmap_defined by done.
  apply length_fmap.
Qed.

Lemma bind_length_const {A B : Type} (f : A -> list B) (l : list A) n :
  (forall a, a ∈ l -> length (f a) = n) ->
  length (l ≫= f) = (length l * n)%nat.
Proof.
  induction l as [|a l IH]; intros H; [done|].
  rewrite bind_cons, length_app, H, IH; [done| |by left].
  intros; apply H; by right.
Qed.

Lemma elem_of_window_cells width r x y c i :
  i ∈ window_cells width r x y c ->
  exists kx ky, - r <= kx <= r /\ - r <= ky <= r /\
                i = pixel_index width (x + kx) (y + ky) c.
Proof.
  unfold window_cells. intros (ky & Hi & Hky)%list_elem_of_bind.
  apply list_elem_of_bind in Hi as (kx & Hi & Hkx).
  apply list_elem_of_singleton in Hi.
  apply elem_of_seqZ in Hky, Hkx. exists kx, ky. split; [lia|]. split; [lia|done].
Qed.

Lemma window_cells_length width r x y c :
  0 <= r ->
  Z.of_nat (length (window_cells width r x y c)) = (2 * r + 1) * (2 * r + 1).
Proof.
  intros Hr. unfold window_cells.
  rewrite (bind_length_const _ _ (Z.to_nat (2 * r + 1))).
  - rewrite length_seqZ, Nat2Z.inj_mul, !Z2Nat.id by lia. done.
  - intros ky _. rewrite (bind_length_const _ _ 1%nat) by done.
    rewrite length_seqZ. lia.
Qed.

(** The inner loops of [applyDenoise] read the window cells in order. *)
Lemma denoise_neighbors_cells tempData width radius x y c :
  denoise_neighbors tempData width radius x y c =
    byte_at tempData <$> window_cells width radius x y c.
Proof.
  unfold denoise_neighbors, for_loop, window_cells.
  replace (radius + 1 - - radius) with (2 * radius + 1) by lia.
  rewrite (fold_left_push _ (fun ky =>
    kx ← seqZ (- radius) (2 * radius + 1);
    [byte_at tempData (pixel_index width (x + kx) (y + ky) c)])).
  - cbn. apply bind_fmap_in. intros ky _. by apply bind_fmap_in.
  - intros t ky. by apply fold_left_push.
Qed.

Context (width height : Z) (data : list Z).
Hypothesis Hbuf : buffer_of width height data.

Lemma window_in_range r x y c kx ky :
  full_window width height r x y -> 0 <= c < 4 ->
  - r <= kx <= r -> - r <= ky <= r ->
  0 <= pixel_index width (x + kx) (y + ky) c < Z.of_nat (length data).
Proof.
  intros [Hx Hy] Hc Hkx Hky. rewrite (buffer_length _ _ _ Hbuf).
  apply pixel_index_bounds; lia.
Qed.

(** In a full window every read of the inner loops is defined. *)
Lemma window_cells_defined r x y c i :
  full_window width height r x y -> 0 <= c < 4 ->
  i ∈ window_cells width r x y c -> is_Some (byte_at data i).
Proof.
  intros Hfull Hc (kx & ky & Hkx & Hky & ->)%elem_of_window_cells.
  by apply byte_at_in_range, (window_in_range r).
Qed.

Lemma denoise_neighbors_values r x y c :
  full_window width height r x y -> 0 <= c < 4 ->
  denoise_neighbors data width r x y c =
    Some <$> window_values data width r x y c.
Proof.
  intros Hfull Hc. rewrite denoise_neighbors_cells. unfold window_values.
  apply fmap_defined. intros i. by apply window_cells_defined.
Qed.

Lemma window_values_length r x y c :
  0 <= r -> full_window width height r x y -> 0 <= c < 4 ->
  Z.of_nat (length (window_values data width r x y c))
  = (2 * r + 1) * (2 * r + 1).
Proof.
  intros Hr Hfull Hc. unfold window_values.
  rewrite omap_defined_length by (intros i; by apply window_cells_defined).
  by apply window_cells_length.
Qed.

End WindowFacts.

Section SortFacts.

Lemma omap_id_Some (l : list Z) : omap id (Some <$> l) = l.
Proof. induction l as [|b l IH]; [done|]. cbn. by rewrite IH. Qed.

Lemma filter_None_Some (l : list Z) :
  filter (fun v : option Z => v = None) (Some <$> l) = [].
Proof.
  induction l as [|b l IH]; [done|].
  rewrite fmap_cons, filter_cons_False by done. exact IH.
Qed.

(** On numbers alone the sort is the ascending sort. *)
Lemma sort_numeric_values (l : list Z) :
  sort_numeric (Some <$> l) = Some <$> merge_sort Z.le l.
Proof.
  unfold sort_numeric.
  by rewrite omap_id_Some, filter_None_Some, app_nil_r.
Qed.

Lemma median_of_values (l : list Z) :
  median_of (Some <$> l) =
    merge_sort Z.le l !! (length (merge_sort Z.le l) / 2)%nat.
Proof.
  unfold median_of. rewrite sort_numeric_values, length_fmap.
  rewrite list_lookup_fmap. by destruct (_ !! _).
Qed.

Lemma merge_sort_length (l : list Z) :
  length (merge_sort Z.le l) = length l.
Proof. apply Permutation_length, merge_sort_Permutation. Qed.

End SortFacts.

(** ** Denoise *)

Section DenoiseFacts.

Lemma denoise_loops_raster tempData width height radius strength data :
  denoise_loops tempData width height radius strength data =
    raster width (fun _ _ _ => true)
      (denoise_value tempData width radius strength)
      radius (height - radius) radius (width - radius) data.
Proof. reflexivity. Qed.

Lemma half_lt (n : nat) : (0 < n)%nat -> (n / 2 < n)%nat.
Proof. intros. apply Nat.div_lt; lia. Qed.

End DenoiseFacts.

(** C4. For every buffer and every strength above 0, denoise runs to its
    end with the window radius [r = ceil(strength * 2)]; every colour
    channel of every pixel whose full window lies inside the image is set
    to [original * (1 - strength) + median * strength], the median being
    the middle element of the sorted window values of the snapshot; every
    pixel within [r] of a border is left as it was. *)
Theorem denoise_blends_median width height strength data :
  buffer_of width height data ->
  (0 <? strength)%float = true ->
  exists data',
    denoise_pass width height strength data = Done data' /\
    denoise_spec width height strength data data'.
Proof.
  intros Hbuf Hpos. unfold denoise_pass, denoise_spec.
  pose proof (radius_of_positive strength 2 _ _ Hpos eq_refl) as Hrad.
  destruct (Math_ceil (strength * 2)) as [|[]|r]; try discriminate Hrad.
  - eexists; split; [reflexivity|]. done.
  - eexists; split; [reflexivity|]. done.
  - eexists; split; [reflexivity|]. rewrite denoise_loops_raster.
    split; [apply raster_length|]. split; [done|]. split.
    + intros x y c Hfull Hc. pose proof Hfull as [Hx Hy].
      assert (0 <= pixel_index width x y c < Z.of_nat (length data)) as Hin.
      { replace x with (x + 0) by lia. replace y with (y + 0) by lia.
        apply (window_in_range width height data Hbuf r); [done|lia..]. }
      destruct (byte_at_in_range data _ Hin) as [original Horig].
      pose proof (window_values_length width height data Hbuf r x y c
                    Hrad Hfull ltac:(lia)) as Hlen.
      set (values := window_values data width r x y c) in *.
      assert (is_Some (merge_sort Z.le values
                         !! (length (merge_sort Z.le values) / 2)%nat))
        as [median Hmed].
      { apply lookup_lt_is_Some, half_lt. rewrite merge_sort_length. nia. }
      exists original, (merge_sort Z.le values), median.
      split; [done|]. split; [apply Sorted_merge_sort; apply _|].
      split; [apply merge_sort_Permutation|].
      split; [by rewrite merge_sort_length|]. split; [done|].
      rewrite raster_hit by (try done; lia).
      unfold denoise_value.
      rewrite (denoise_neighbors_values width height data Hbuf) by (done || lia).
      fold values. rewrite median_of_values, Hmed.
      unfold u8_get. rewrite Horig. done.
    + intros x y c Hx Hy Hc Hnot. apply raster_miss.
      intros x' y' c' Hy' Hx' Hc' _ Heq.
      apply pixel_index_inj in Heq as (-> & -> & ->); [|lia..].
      apply Hnot. split; lia.
Qed.

Lemma denoise_blends_median_witness :
  exists data',
    denoise_pass 3 3 0.3 sample_3x3 = Done data' /\
    denoise_spec 3 3 0.3 sample_3x3 data'.
Proof.
  apply (denoise_blends_median 3 3 0.3 sample_3x3).
  - constructor; [lia|lia|reflexivity|reflexivity].
  - reflexivity.
Defined.

(** ** Deblur *)

Section DeblurFacts.

Lemma deblur_sum_count_cells tempData width radius x y c :
  deblur_sum_count tempData width radius x y c =
    fold_left (sum_count_step tempData) (window_cells width radius x y c)
      (0%float, 0).
Proof.
  unfold deblur_sum_count, for_loop, window_cells.
  replace (radius + 1 - - radius) with (2 * radius + 1) by lia.
  apply fold_left_bind. intros t ky.
  apply fold_left_bind. intros [sum count] kx. reflexivity.
Qed.

Lemma sum_count_defined data cells sum count :
  (forall i, i ∈ cells -> is_Some (byte_at data i)) ->
  fold_left (sum_count_step data) cells (sum, count) =
    (fold_left (fun s v => (s + of_int v)%float)
       (omap (byte_at data) cells) sum,
     count + Z.of_nat (length cells)).
Proof.
  revert sum count. induction cells as [|i cells IH]; intros sum count H.
  - cbn. f_equal. lia.
  - destruct (H i) as [b Hb]; [by left|].
    cbn. unfold u8_get. rewrite Hb. cbn.
    rewrite IH by (intros; apply H; by right). f_equal. lia.
Qed.

Lemma deblur_avg_mean width height data r x y c :
  buffer_of width height data ->
  full_window width height r x y -> 0 <= c < 4 ->
  deblur_avg data width r x y c = window_mean data width r x y c.
Proof.
  intros Hbuf Hfull Hc. unfold deblur_avg, window_mean, window_sum.
  rewrite deblur_sum_count_cells, sum_count_defined
    by (intros i; by apply (window_cells_defined width height)).
  unfold window_values.
  rewrite omap_defined_length
    by (intros i; by apply (window_cells_defined width height)).
  done.
Qed.

Lemma deblur_loops_raster tempData width height radius amount data :
  deblur_loops tempData width height radius amount data =
    raster width
      (fun x y c =>
         (deblur_threshold
          <? Math_abs (deblur_diff tempData width radius x y c))%float)
      (fun x y c =>
         Math_min 255
           (Math_max 0
              (u8_get tempData (pixel_index width x y c)
               + deblur_diff tempData width radius x y c * amount)%float))
      radius (height - radius) radius (width - radius) data.
Proof. reflexivity. Qed.

End DeblurFacts.

(** C5. For every buffer and every strength above 0, deblur runs to its end
    with [radius = ceil(strength * 3)], [amount = strength * 1.5] and
    the threshold 10; for every colour channel of every pixel with a full
    window, [diff] is the original value minus the mean of the window in
    the snapshot, the channel becomes [clamp(original + diff * amount)]
    when [|diff| > 10] and keeps its value otherwise; the pixels within
    [radius] of a border are left as they were. *)
Theorem deblur_unsharp_mask width height strength data :
  buffer_of width height data ->
  (0 <? strength)%float = true ->
  exists data',
    deblur_pass width height strength data = Done data' /\
    deblur_spec width height strength data data'.
Proof.
  intros Hbuf Hpos. unfold deblur_pass, deblur_spec.
  pose proof (radius_of_positive strength 3 _ _ Hpos eq_refl) as Hrad.
  destruct (Math_ceil (strength * 3)) as [|[]|r]; try discriminate Hrad.
  - eexists; split; [reflexivity|]. done.
  - eexists; split; [reflexivity|]. done.
  - eexists; split; [reflexivity|]. rewrite deblur_loops_raster.
    split; [apply raster_length|]. split; [done|]. split.
    + intros x y c Hfull Hc. pose proof Hfull as [Hx Hy].
      assert (0 <= pixel_index width x y c < Z.of_nat (length data)) as Hin.
      { replace x with (x + 0) by lia. replace y with (y + 0) by lia.
        apply (window_in_range width height data Hbuf r); [done|lia..]. }
      destruct (byte_at_in_range data _ Hin) as [original Horig].
      exists original. split; [done|].
      split; [by apply (window_values_length width height); try lia|].
      cbn zeta. rewrite raster_hit by (try done; lia).
      unfold deblur_diff, u8_get.
      rewrite (deblur_avg_mean width height) by (done || lia).
      rewrite Horig. cbn [to_number]. reflexivity.
    + intros x y c Hx Hy Hc Hnot. apply raster_miss.
      intros x' y' c' Hy' Hx' Hc' _ Heq.
      apply pixel_index_inj in Heq as (-> & -> & ->); [|lia..].
      apply Hnot. split; lia.
Qed.

Lemma deblur_unsharp_mask_witness :
  exists data',
    deblur_pass 3 3 0.3 sample_3x3 = Done data' /\
    deblur_spec 3 3 0.3 sample_3x3 data'.
Proof.
  apply (deblur_unsharp_mask 3 3 0.3 sample_3x3).
  - constructor; [lia|lia|reflexivity|reflexivity].
  - reflexivity.
Defined.

(** ** Tone adjustment *)

Section ToneFacts.

(** One of the two inner [j] loops: the three colour bytes of the pixel
    at [i] go through [f]. *)
Lemma channel_loop (f : float -> float) i data j :
  byte_at
    (for_loop 0 3 (fun k d => u8_set d (i + k) (f (u8_get d (i + k)))) data)
    j
  = if decide (i <= j < i + 3)
    then (fun b => ToUint8Clamp (f (of_int b))) <$> byte_at data j
    else byte_at data j.
Proof.
  rewrite for_loop_0_3. unfold u8_get.
  rewrite !byte_at_u8_set, !length_u8_set.
  repeat (rewrite !byte_at_u8_set, ?length_u8_set).
  destruct (decide (i <= j < i + 3)) as [Hj|Hj].
  - destruct (byte_at data j) as [b|] eqn:Hb.
    + apply byte_at_Some in Hb as Hr.
      assert (j = i + 0 \/ j = i + 1 \/ j = i + 2) as [-> | [-> | ->]] by lia.
      all: repeat case_decide; try lia; rewrite ?Hb; try done.
    + assert (~ (0 <= j < Z.of_nat (length data))) as Hr.
      { intros Hr. apply byte_at_in_range in Hr as [? ?]. congruence. }
      repeat case_decide; try lia; done.
  - repeat case_decide; try lia; done.
Qed.

Lemma tone_pixel_spec settings i data j :
  byte_at (tone_pixel settings i data) j
  = if decide (i <= j < i + 3)
    then tone_byte settings <$> byte_at data j
    else byte_at data j.
Proof.
  unfold tone_pixel.
  rewrite (channel_loop (contrast_value settings)).
  rewrite (channel_loop (brightness_value settings)).
  case_decide; [|done].
  destruct (byte_at data j) as [b|]; [|done]. cbn.
  unfold tone_byte, contrast_step, brightness_step, contrast_value,
    brightness_value.
  by rewrite <- !store_min_255.
Qed.

Lemma tone_pixel_length settings i data :
  length (tone_pixel settings i data) = length data.
Proof.
  unfold tone_pixel. rewrite !for_loop_0_3. by rewrite !length_u8_set.
Qed.

Lemma tone_pass_spec settings data j :
  byte_at (tone_pass settings data) j
  = if decide (j mod 4 = 3) then byte_at data j
    else tone_byte settings <$> byte_at data j.
Proof.
  unfold tone_pass. rewrite for_step_4.
  set (n := Z.of_nat (length data)).
  assert (0 <= (n + 3) / 4) as Hk by (apply Z.div_pos; lia).
  pose proof (for_loop_invariant (tone_done settings data) 0 ((n + 3) / 4)
                (fun k => tone_pixel settings (4 * k)) data Hk) as Hinv.
  destruct Hinv as [Hlen Hbytes].
  - split; [done|]. intros i. case_decide as Hd; [|done].
    destruct (byte_at data i) eqn:Hb; [|done].
    apply byte_at_Some in Hb. lia.
  - intros k d Hrange [Hlen Hd]. split.
    + by rewrite tone_pixel_length.
    + intros i. rewrite tone_pixel_spec, Hd.
      repeat case_decide; try done; Z.div_mod_to_equations; lia.
  - rewrite Hbytes.
    destruct (byte_at data j) as [b|] eqn:Hb.
    + apply byte_at_Some in Hb. fold n in Hb.
      assert (j < 4 * ((n + 3) / 4)) by (Z.div_mod_to_equations; lia).
      repeat case_decide; try done; lia.
    + repeat case_decide; done.
Qed.

Lemma tone_pass_length settings data :
  length (tone_pass settings data) = length data.
Proof.
  apply Nat2Z.inj. destruct (Z.lt_ge_cases (Z.of_nat (length data))
    (Z.of_nat (length (tone_pass settings data)))) as [Hlt|Hge].
  - destruct (byte_at_in_range (tone_pass settings data)
                (Z.of_nat (length data))) as [b Hb]; [lia|].
    rewrite tone_pass_spec, byte_at_out_of_range in Hb by lia.
    by case_decide.
  - destruct (Z.eq_dec (Z.of_nat (length (tone_pass settings data)))
                (Z.of_nat (length data))) as [|Hne]; [done|].
    assert (byte_at (tone_pass settings data)
              (Z.of_nat (length (tone_pass settings data))) = None) as Hb
      by (apply byte_at_out_of_range; lia).
    rewrite tone_pass_spec in Hb.
    destruct (byte_at_in_range data
                (Z.of_nat (length (tone_pass settings data)))) as [b Hb'];
      [lia|].
    rewrite Hb' in Hb. by case_decide.
Qed.

End ToneFacts.

(** A property of bytes can be checked on the 256 of them. *)
Lemma byte_cases (P : Z -> bool) :
  forallb P (seqZ 0 256) = true -> forall b, is_byte b = true -> P b = true.
Proof.
  intros H b Hb. rewrite forallb_forall in H. apply H.
  apply list_elem_of_In, elem_of_seqZ. unfold is_byte in Hb.
  apply andb_true_iff in Hb as [H0 H1].
  apply Z.leb_le in H0, H1. lia.
Qed.

Lemma buffer_byte_at width height data i b :
  buffer_of width height data -> byte_at data i = Some b -> is_byte b = true.
Proof.
  intros Hbuf Hb. pose proof (buffer_bytes _ _ _ Hbuf) as Hall.
  rewrite forallb_forall in Hall. apply Hall, list_elem_of_In.
  unfold byte_at in Hb. destruct (i <? 0); [done|].
  by eapply list_elem_of_lookup_2.
Qed.

(** C6. For every buffer the tone stage maps every colour byte [v] of every
    pixel, border or not, to the contrast step of its brightness step, in
    this order: [v] becomes [clamp(v * brightness, 0, 255)], and that
    byte becomes [clamp(((v / 255 - 0.5) * contrast + 0.5) * 255, 0, 255)];
    a value 200 with brightness 1.2 and contrast 1.0 gives 240. *)
Theorem tone_brightness_then_contrast (settings : Settings) (data : list Z) :
  (forall i,
     byte_at (tone_pass settings data) i =
       if decide (i mod 4 = 3) then byte_at data i
       else (fun v => contrast_step (contrast settings)
                        (brightness_step (brightness settings) v))
              <$> byte_at data i) /\
  brightness_step 1.2 200 = 240 /\
  contrast_step 1.0 (brightness_step 1.2 200) = 240.
Proof.
  split; [|split; vm_compute; reflexivity].
  intros i. apply tone_pass_spec.
Qed.

(** C10. With brightness 1 and contrast 1, the values of the Balanced
    preset, the tone stage leaves every byte of every buffer as it was. *)
Theorem tone_unit_is_identity (settings : Settings) (data : list Z) :
  brightness settings = 1%float ->
  contrast settings = 1%float ->
  forallb is_byte data = true ->
  tone_pass settings data = data.
Proof.
  intros Hb Hc Hbytes. apply byte_at_ext. intros i.
  rewrite tone_pass_spec. case_decide; [done|].
  destruct (byte_at data i) as [v|] eqn:Hv; [|done]. cbn. f_equal.
  unfold tone_byte. rewrite Hb, Hc.
  assert (is_byte v = true) as Hbyte.
  { rewrite forallb_forall in Hbytes. apply Hbytes, list_elem_of_In.
    unfold byte_at in Hv. destruct (i <? 0); [done|].
    by eapply list_elem_of_lookup_2. }
  apply Z.eqb_eq.
  apply (byte_cases (fun v => contrast_step 1 (brightness_step 1 v) =? v));
    [|done].
  vm_compute. reflexivity.
Qed.

Lemma tone_unit_is_identity_witness :
  brightness Balanced = 1%float /\ contrast Balanced = 1%float /\
  tone_pass Balanced sample_3x3 = sample_3x3.
Proof.
  split; [reflexivity|]. split; [reflexivity|].
  apply (tone_unit_is_identity Balanced sample_3x3); reflexivity.
Defined.

(** ** Sharpen *)

Section SharpenFacts.

Lemma sharpen_sum_cells tempData boost width x y c :
  sharpen_sum tempData (sharpen_kernel boost) width x y c =
    fold_left (weighted_step tempData)
      (zip (window_cells width 1 x y c) (kernel_weights boost)) 0%float.
Proof. reflexivity. Qed.

Lemma weighted_defined data cells weights sum :
  (forall i, i ∈ cells -> is_Some (byte_at data i)) ->
  fold_left (weighted_step data) (zip cells weights) sum =
    fold_left (fun sum '(v, w) => (sum + of_int v * w)%float)
      (zip (omap (byte_at data) cells) weights) sum.
Proof.
  revert weights sum.
  induction cells as [|i cells IH]; intros weights sum H; [done|].
  destruct (H i) as [b Hb]; [by left|].
  destruct weights as [|w weights]; cbn; rewrite Hb; [done|].
  cbn. unfold u8_get. rewrite Hb. cbn.
  apply IH. intros; apply H; by right.
Qed.

Lemma sharpen_loops_raster tempData kernel width height data :
  sharpen_loops tempData kernel width height data =
    raster width (fun _ _ _ => true)
      (fun x y c => clamp_0_255 (sharpen_sum tempData kernel width x y c))
      1 (height - 1) 1 (width - 1) data.
Proof. reflexivity. Qed.

Lemma sharpen_loops_spec width height boost data :
  buffer_of width height data ->
  sharpen_spec width height boost data
    (sharpen_loops data (sharpen_kernel boost) width height data).
Proof.
  intros Hbuf. rewrite sharpen_loops_raster.
  split; [apply raster_length|]. split.
  - intros x y c Hfull Hc. pose proof Hfull as [Hx Hy]. split.
    { apply Nat2Z.inj.
      rewrite (window_values_length width height data Hbuf 1) by (done || lia).
      done. }
    rewrite raster_hit; [| lia | lia | done | done | done |].
    + rewrite sharpen_sum_cells, weighted_defined; [done|].
      intros i. apply (window_cells_defined width height); [done|done|lia].
    + replace x with (x + 0) by lia. replace y with (y + 0) by lia.
      apply (window_in_range width height data Hbuf 1); [done|lia..].
  - intros x y c Hx Hy Hc Hnot. apply raster_miss.
    intros x' y' c' Hy' Hx' Hc' _ Heq.
    apply pixel_index_inj in Heq as (-> & -> & ->); [|lia..].
    apply Hnot. split; lia.
Qed.

(** Under the settings of the catalog the kernel sum of a uniform window
    is stored as the byte of [v * (1 + boost)]. *)
Lemma catalog_uniform_scaled width height data :
  buffer_of width height data ->
  forall settings, settings ∈ ENHANCEMENT_PRESETS ->
  forall x y c v,
    window_values data width 1 x y c = replicate 9 v ->
    uniform_byte (sharpen_boost settings) v
    = scaled_byte (sharpen_boost settings) v.
Proof.
  intros Hbuf settings Hp x y c v Hv.
  assert (is_byte v = true) as Hbyte.
  { assert (v ∈ window_values data width 1 x y c) as Hin
      by (rewrite Hv; cbn; left).
    unfold window_values in Hin.
    apply list_elem_of_omap in Hin as (i & _ & Hi).
    by eapply buffer_byte_at. }
  apply Z.eqb_eq.
  apply (byte_cases (fun v => uniform_byte (sharpen_boost settings) v
                              =? scaled_byte (sharpen_boost settings) v));
    [|done].
  unfold ENHANCEMENT_PRESETS in Hp.
  repeat (apply elem_of_cons in Hp as [->|Hp]; [vm_compute; reflexivity|]).
  by apply elem_of_nil in Hp.
Qed.

End SharpenFacts.

(** C7. When [sharpness > 1], with [boost = (sharpness - 1) * 0.8], every
    colour channel of every non-border pixel becomes the clamp to
    [0, 255] of the 3 by 3 convolution of the snapshot (the eight
    neighbours at weight -1, the centre at [9 + boost]), and the outermost
    ring keeps its bytes; on a window whose nine values equal [v] the
    result is the clamp of that kernel sum, and for the settings of the
    catalog it is [clamp(v * (1 + boost), 0, 255)]: the uniform region is
    scaled, not kept. *)
Theorem sharpen_convolution width height settings data :
  buffer_of width height data ->
  (1 <? sharpness settings)%float = true ->
  let boost := sharpen_boost settings in
  let data' := sharpen_pass width height settings data in
  sharpen_spec width height boost data data' /\
  (forall x y c v,
     full_window width height 1 x y -> 0 <= c < 3 ->
     window_values data width 1 x y c = replicate 9 v ->
     byte_at data' (pixel_index width x y c) = Some (uniform_byte boost v)) /\
  (settings ∈ ENHANCEMENT_PRESETS ->
   forall x y c v,
     full_window width height 1 x y -> 0 <= c < 3 ->
     window_values data width 1 x y c = replicate 9 v ->
     byte_at data' (pixel_index width x y c) = Some (scaled_byte boost v)).
Proof.
  intros Hbuf Hgt boost data'.
  assert (sharpen_spec width height boost data data') as Hspec.
  { unfold data', sharpen_pass. rewrite Hgt. by apply sharpen_loops_spec. }
  assert (forall x y c v,
            full_window width height 1 x y -> 0 <= c < 3 ->
            window_values data width 1 x y c = replicate 9 v ->
            byte_at data' (pixel_index width x y c)
            = Some (uniform_byte boost v)) as Hker.
  { intros x y c v Hfull Hc Hv.
    destruct Hspec as (_ & Hin & _).
    destruct (Hin x y c Hfull Hc) as [_ ->]. by rewrite Hv. }
  split; [done|]. split; [done|].
  intros Hp x y c v Hfull Hc Hv.
  rewrite (Hker x y c v Hfull Hc Hv). f_equal.
  by apply (catalog_uniform_scaled width height data Hbuf settings Hp x y c).
Qed.

Lemma sharpen_convolution_witness :
  let data := uniform_image 3 3 gray_128 in
  let data' := sharpen_pass 3 3 Balanced data in
  sharpen_spec 3 3 (sharpen_boost Balanced) data data' /\
  byte_at data' (pixel_index 3 1 1 0)
  = Some (scaled_byte (sharpen_boost Balanced) 128) /\
  scaled_byte (sharpen_boost Balanced) 128 = 138.
Proof.
  destruct (sharpen_convolution 3 3 Balanced (uniform_image 3 3 gray_128))
    as (Hspec & _ & Hscaled).
  - constructor; [lia|lia|reflexivity|reflexivity].
  - reflexivity.
  - split; [exact Hspec|]. split; [|vm_compute; reflexivity].
    apply Hscaled.
    + unfold ENHANCEMENT_PRESETS. left.
    + unfold full_window. lia.
    + lia.
    + vm_compute. reflexivity.
Defined.

(** ** The stages and their order *)

Section PipelineFacts.

Lemma applyDenoise_pass width height strength cv :
  applyDenoise width height strength cv =
    if (width =? 0) || (height =? 0) then Throws IndexSizeError
    else outcome_bind (denoise_pass width height strength (bitmap cv))
           (fun data => Done (tt, with_bitmap cv data)).
Proof.
  unfold applyDenoise, bind, lift, getImageData, putImageData.
  destruct ((width =? 0) || (height =? 0)); [done|]. cbn.
  by destruct (denoise_pass _ _ _ _).
Qed.

Lemma applyDeblur_pass width height strength cv :
  applyDeblur width height strength cv =
    if (width =? 0) || (height =? 0) then Throws IndexSizeError
    else outcome_bind (deblur_pass width height strength (bitmap cv))
           (fun data => Done (tt, with_bitmap cv data)).
Proof.
  unfold applyDeblur, bind, lift, getImageData, putImageData.
  destruct ((width =? 0) || (height =? 0)); [done|]. cbn.
  by destruct (deblur_pass _ _ _ _).
Qed.

Lemma applyImageEnhancements_stages width height settings cv :
  applyImageEnhancements width height settings cv =
    if (width =? 0) || (height =? 0) then Throws IndexSizeError
    else outcome_bind
           (run_stages width height settings stage_order (bitmap cv))
           (fun data => Done (tt, with_bitmap cv data)).
Proof.
  unfold applyImageEnhancements, run_stages, run_stage, stage_order.
  cbn [fold_left stage_runs stage_body outcome_bind].
  unfold sharpen_pass. fold (sharpen_boost settings).
  destruct (0 <? denoise settings)%float, (0 <? deblur settings)%float;
    cbv beta iota delta [when bind ret];
    rewrite ?applyDenoise_pass;
    destruct ((width =? 0) || (height =? 0)) eqn:Hzero;
    try (destruct (denoise_pass _ _ _ _) as [d| |]);
    cbv beta iota delta [outcome_bind];
    rewrite ?applyDeblur_pass, ?Hzero;
    try (destruct (deblur_pass _ _ _ _) as [d'| |]);
    cbv beta iota delta [outcome_bind getImageData putImageData with_data
                         with_bitmap idata canvas_width canvas_height bitmap];
    rewrite ?Hzero; try done.
  all: by destruct (1 <? sharpness settings)%float.
Qed.

Lemma pipeline_stage_order_zero drawImage img resolution settings :
  let canvas := resample drawImage img resolution in
  (canvas_width canvas =? 0) || (canvas_height canvas =? 0) = true ->
  onload drawImage img resolution settings = Throws IndexSizeError.
Proof.
  intros canvas Hzero. unfold onload. fold canvas.
  by rewrite applyImageEnhancements_stages, Hzero.
Qed.

End PipelineFacts.

(** C1. For every image, resolution and settings, the handler resamples
    first and then runs, on the resampled bitmap, denoise (iff
    [settings.denoise > 0]), deblur (iff [settings.deblur > 0]), the tone
    adjustment (always) and sharpen (iff [settings.sharpness > 1]), in
    this order, each on the output of the one before, and nothing else;
    on a canvas without pixels the first [getImageData] throws. *)
Theorem pipeline_stage_order (drawImage : Resampler) (img : Image)
  (resolution : Resolution) (settings : Settings) :
  let canvas := resample drawImage img resolution in
  let width := canvas_width canvas in
  let height := canvas_height canvas in
  onload drawImage img resolution settings =
    if (width =? 0) || (height =? 0) then Throws IndexSizeError
    else outcome_bind
           (run_stages width height settings
              [Denoise; Deblur; ToneAdjust; Sharpen] (bitmap canvas))
           (fun data => Done (with_bitmap canvas data)).
Proof.
  intros canvas width height. unfold onload. fold canvas width height.
  rewrite applyImageEnhancements_stages. fold stage_order.
  destruct ((width =? 0) || (height =? 0)); [done|].
  by destruct (run_stages _ _ _ _ _).
Qed.

(** ** Alpha and the range of the bytes *)

Section EffectFacts.

Lemma stage_effect_refl data : stage_effect data data.
Proof. split; [done|]. intros i. by left. Qed.

Lemma stage_effect_trans d1 d2 d3 :
  stage_effect d1 d2 -> stage_effect d2 d3 -> stage_effect d1 d3.
Proof.
  intros [L12 H12] [L23 H23]. split; [congruence|].
  intros i. destruct (H23 i) as [E23|W]; [|by right].
  rewrite E23. apply H12.
Qed.

Lemma stage_effect_keeps data data' :
  stage_effect data data' -> stage_keeps data data'.
Proof.
  intros [Hlen H]. split; [done|]. split.
  - intros i Hi. destruct (H i) as [E|[Hne _]]; [done|lia].
  - intros i b Hb Hne. destruct (H i) as [E|[Hc [v Hv]]]; [done|].
    split; [done|]. rewrite Hv in Hb. injection Hb as <-.
    apply ToUint8Clamp_range.
Qed.

Lemma raster_effect width enabled value y0 y1 x0 x1 data :
  stage_effect data (raster width enabled value y0 y1 x0 x1 data).
Proof.
  split; [apply raster_length|]. intros i. rewrite raster_as_stores.
  destruct (stores_either (cell_key width) (cell_enabled enabled)
              (cell_value value) (raster_cells y0 y1 x0 x1) data i)
    as [E|([[x y] c] & Hin & Hk & E)]; [by left|].
  right. apply elem_of_raster_cells in Hin. cbn in Hk. subst i.
  split; [|by eexists]. rewrite pixel_index_channel; lia.
Qed.

Lemma tone_effect settings data :
  stage_effect data (tone_pass settings data).
Proof.
  split; [apply tone_pass_length|]. intros i. rewrite tone_pass_spec.
  case_decide; [by left|].
  destruct (byte_at data i); [|by left]. right. split; [done|].
  cbn. unfold tone_byte, contrast_step. by eexists.
Qed.

Lemma denoise_effect width height strength data :
  (0 <? strength)%float = true ->
  exists data', denoise_pass width height strength data = Done data' /\
                stage_effect data data'.
Proof.
  intros Hpos. unfold denoise_pass.
  pose proof (radius_of_positive strength 2 _ _ Hpos eq_refl) as Hrad.
  destruct (Math_ceil (strength * 2)) as [|[]|r]; try discriminate Hrad.
  - eexists. split; [done|apply stage_effect_refl].
  - eexists. split; [done|apply stage_effect_refl].
  - eexists. split; [done|]. rewrite denoise_loops_raster.
    apply raster_effect.
Qed.

Lemma deblur_effect width height strength data :
  (0 <? strength)%float = true ->
  exists data', deblur_pass width height strength data = Done data' /\
                stage_effect data data'.
Proof.
  intros Hpos. unfold deblur_pass.
  pose proof (radius_of_positive strength 3 _ _ Hpos eq_refl) as Hrad.
  destruct (Math_ceil (strength * 3)) as [|[]|r]; try discriminate Hrad.
  - eexists. split; [done|apply stage_effect_refl].
  - eexists. split; [done|apply stage_effect_refl].
  - eexists. split; [done|]. rewrite deblur_loops_raster.
    apply raster_effect.
Qed.

(** Every stage, run as the pipeline runs it, ends and has this
    effect. *)
Lemma run_stage_effect width height settings stage data :
  exists data',
    run_stage width height settings (Done data) stage = Done data' /\
    stage_effect data data'.
Proof.
  unfold run_stage. cbn [outcome_bind].
  destruct (stage_runs settings stage) eqn:Hruns;
    [|eexists; split; [done|apply stage_effect_refl]].
  destruct stage; cbn in *.
  - by apply denoise_effect.
  - by apply deblur_effect.
  - eexists. split; [done|apply tone_effect].
  - eexists. split; [done|]. rewrite sharpen_loops_raster.
    apply raster_effect.
Qed.

Lemma run_stages_effect width height settings stages data :
  exists data',
    run_stages width height settings stages data = Done data' /\
    stage_effect data data'.
Proof.
  unfold run_stages.
  induction stages as [|stage stages IH] using rev_ind.
  - eexists. split; [done|apply stage_effect_refl].
  - destruct IH as (d & Hd & Hed). rewrite fold_left_app, Hd. cbn.
    destruct (run_stage_effect width height settings stage d)
      as (d' & Hd' & Hed').
    exists d'. split; [done|]. by eapply stage_effect_trans.
Qed.

End EffectFacts.

(** C2. For every buffer and every stage of the pipeline (denoise, deblur,
    tone adjustment, sharpen), run under its guard, the stage ends, every
    byte it changes is a colour byte within [0, 255], and every alpha
    byte is the alpha byte before the stage; the same holds from the
    input to the output of the four stages in a row. *)
Theorem stages_keep_alpha_and_range (width height : Z) (settings : Settings)
  (data : list Z) :
  (forall stage,
     exists data',
       run_stage width height settings (Done data) stage = Done data' /\
       stage_keeps data data') /\
  (exists data',
     run_stages width height settings stage_order data = Done data' /\
     stage_keeps data data').
Proof.
  split.
  - intros stage.
    destruct (run_stage_effect width height settings stage data)
      as (d & Hd & He).
    exists d. split; [done|]. by apply stage_effect_keeps.
  - destruct (run_stages_effect width height settings stage_order data)
      as (d & Hd & He).
    exists d. split; [done|]. by apply stage_effect_keeps.
Qed.

(** ** No-op laws *)

Section NoOpFacts.

Lemma SFcompare_antisym x y :
  SFcompare y x = CompOpp <$> SFcompare x y.
Proof.
  destruct x as [sx|sx| |sx mx ex], y as [sy|sy| |sy my ey];
    try (by destruct sx, sy); try (by destruct sx); try (by destruct sy);
    try done.
  unfold SFcompare. cbn [fmap option_fmap option_map].
  pose proof (Pos.compare_cont_antisym mx my Eq) as Hm. cbn in Hm.
  destruct sx, sy; try done; f_equal.
  - rewrite (Z.compare_antisym ex ey).
    destruct (ex ?= ey) eqn:E; cbn; try done.
    rewrite <- Hm. by destruct (Pos.compare_cont Eq mx my).
  - rewrite (Z.compare_antisym ex ey).
    destruct (ex ?= ey) eqn:E; cbn; try done.
Qed.

(** [x <= y] excludes [y < x]. *)
Lemma leb_not_ltb (x y : float) :
  (x <=? y)%float = true -> (y <? x)%float = false.
Proof.
  rewrite FloatAxioms.leb_spec, FloatAxioms.ltb_spec.
  unfold SFleb, SFltb. rewrite (SFcompare_antisym (Prim2SF x) (Prim2SF y)).
  by destruct (SFcompare (Prim2SF x) (Prim2SF y)) as [[]|].
Qed.

Context (width height : Z) (data : list Z).
Hypothesis Hbuf : buffer_of width height data.

Lemma window_values_single x y c b :
  byte_at data (pixel_index width x y c) = Some b ->
  window_values data width 0 x y c = [b].
Proof.
  intros Hb. unfold window_values, window_cells.
  change (seqZ (- 0) (2 * 0 + 1)) with [0]. cbn.
  by rewrite !Z.add_0_r, Hb.
Qed.

Lemma full_window_0 x y :
  0 <= x < width -> 0 <= y < height -> full_window width height 0 x y.
Proof. unfold full_window. lia. Qed.

Lemma pixel_defined x y c :
  0 <= x < width -> 0 <= y < height -> 0 <= c < 4 ->
  exists b, byte_at data (pixel_index width x y c) = Some b /\
            is_byte b = true.
Proof.
  intros Hx Hy Hc.
  destruct (byte_at_in_range data (pixel_index width x y c)) as [b Hb].
  { rewrite (buffer_length _ _ _ Hbuf). by apply pixel_index_bounds. }
  exists b. split; [done|]. by eapply buffer_byte_at.
Qed.

(** With strength 0 the blend of a byte with itself is the byte. *)
Lemma denoise_value_0 x y c b :
  0 <= x < width -> 0 <= y < height -> 0 <= c < 3 ->
  byte_at data (pixel_index width x y c) = Some b -> is_byte b = true ->
  ToUint8Clamp (denoise_value data width 0 0 x y c) = b.
Proof.
  intros Hx Hy Hc Hb Hbyte. unfold denoise_value.
  rewrite (denoise_neighbors_values width height data Hbuf)
    by (try apply full_window_0; lia).
  rewrite (window_values_single x y c b Hb), median_of_values.
  unfold u8_get. rewrite Hb. cbn.
  apply Z.eqb_eq.
  apply (byte_cases (fun b =>
           ToUint8Clamp (of_int b * (1 - 0) + of_int b * 0)%float =? b));
    [|done].
  vm_compute. reflexivity.
Qed.

(** With strength 0 no difference from the mean is above the
    threshold. *)
Lemma deblur_diff_0 x y c :
  0 <= x < width -> 0 <= y < height -> 0 <= c < 3 ->
  (deblur_threshold <? Math_abs (deblur_diff data width 0 x y c))%float
  = false.
Proof.
  intros Hx Hy Hc.
  destruct (pixel_defined x y c) as (b & Hb & Hbyte); [lia..|].
  unfold deblur_diff.
  rewrite (deblur_avg_mean width height)
    by (try apply full_window_0; done || lia).
  unfold window_mean. rewrite (window_values_single x y c b Hb).
  unfold u8_get. rewrite Hb. cbn.
  apply negb_true_iff.
  apply (byte_cases (fun b =>
           negb (deblur_threshold
                 <? Math_abs (of_int b - (0 + of_int b) / of_int 1))%float));
    [|done].
  vm_compute. reflexivity.
Qed.

Lemma denoise_0 : denoise_pass width height 0 data = Done data.
Proof.
  unfold denoise_pass.
  assert (Math_ceil (0 * 2) = CeilInt 0) as -> by (vm_compute; reflexivity).
  f_equal. rewrite denoise_loops_raster. apply byte_at_ext. intros i.
  replace (height - 0) with height by lia.
  replace (width - 0) with width by lia.
  set (out := raster _ _ _ _ _ _ _ _).
  destruct (decide (0 <= i < Z.of_nat (length data))) as [Hi|Hi].
  - rewrite (buffer_length _ _ _ Hbuf) in Hi.
    assert (0 < width) as Hw by (destruct Hbuf; nia).
    destruct (pixel_index_decode width height i Hw Hi)
      as (x & y & c & Hx & Hy & Hc & ->).
    destruct (pixel_defined x y c) as (b & Hb & Hbyte); [lia..|].
    destruct (decide (c = 3)) as [->|Hc3].
    + apply raster_miss. intros x' y' c' _ _ Hc' _ Heq.
      apply (f_equal (fun n => n mod 4)) in Heq.
      rewrite !pixel_index_channel in Heq by lia. lia.
    + unfold out. rewrite raster_hit; try lia.
      * rewrite Hb. f_equal. apply denoise_value_0; done || lia.
      * rewrite (buffer_length _ _ _ Hbuf). apply pixel_index_bounds; lia.
  - rewrite !byte_at_out_of_range; [done|done|].
    unfold out. by rewrite raster_length.
Qed.

Lemma deblur_0 : deblur_pass width height 0 data = Done data.
Proof.
  unfold deblur_pass.
  assert (Math_ceil (0 * 3) = CeilInt 0) as -> by (vm_compute; reflexivity).
  f_equal. rewrite deblur_loops_raster. apply byte_at_ext. intros i.
  apply raster_miss. intros x y c Hy Hx Hc Hen.
  rewrite deblur_diff_0 in Hen by lia. discriminate Hen.
Qed.

End NoOpFacts.

(** C3. For every buffer, denoise with strength 0 and deblur with strength 0
    each give back the buffer byte for byte, and with
    [settings.sharpness <= 1] the sharpen stage gives back the buffer
    byte for byte. *)
Theorem noop_laws (width height : Z) (settings : Settings) (data : list Z) :
  buffer_of width height data ->
  denoise_pass width height 0 data = Done data /\
  deblur_pass width height 0 data = Done data /\
  ((sharpness settings <=? 1)%float = true ->
   sharpen_pass width height settings data = data).
Proof.
  intros Hbuf. split; [by apply denoise_0|]. split; [by apply deblur_0|].
  intros Hle. unfold sharpen_pass. by rewrite (leb_not_ltb _ _ Hle).
Qed.

Lemma noop_laws_witness :
  denoise_pass 3 3 0 sample_3x3 = Done sample_3x3 /\
  deblur_pass 3 3 0 sample_3x3 = Done sample_3x3 /\
  sharpen_pass 3 3 unsharpened sample_3x3 = sample_3x3.
Proof.
  destruct (noop_laws 3 3 unsharpened sample_3x3) as (Hd & Hb & Hs).
  - constructor; [lia|lia|reflexivity|reflexivity].
  - split; [exact Hd|]. split; [exact Hb|]. apply Hs. reflexivity.
Defined.

(** ** Dimensions *)

Section DimensionFacts.

Lemma Prim2SF_1 : Prim2SF 1 = S754_finite false 4503599627370496 (-52).
Proof. reflexivity. Qed.

Lemma fexp_canonical m e :
  bounded prec emax m e = true ->
  fexp prec emax (Z.pos (digits2_pos m) + e) = e /\ e <= emax - prec.
Proof.
  unfold bounded, canonical_mantissa. intros H.
  apply andb_true_iff in H as [H1 H2].
  apply Z.eqb_eq in H1. apply Z.leb_le in H2. done.
Qed.

Lemma binary_round_aux_exact s m e :
  fexp prec emax (Z.pos (digits2_pos m) + e) = e -> e <= emax - prec ->
  binary_round_aux prec emax s (Z.pos m) e loc_Exact = S754_finite s m e.
Proof.
  intros Hc He. unfold binary_round_aux, shr_fexp.
  cbn [Zdigits2 shr_record_of_loc]. rewrite Hc, Z.sub_diag.
  cbn [shr shr_m loc_of_shr_record round_nearest_even].
  cbn [Zdigits2 shr_record_of_loc]. rewrite Hc, Z.sub_diag.
  cbn [shr shr_m].
  assert ((e <=? emax - prec) = true) as -> by (apply Z.leb_le; lia). done.
Qed.

Lemma mul_one_finite s m e :
  bounded prec emax m e = true ->
  SF64mul (S754_finite s m e) (Prim2SF 1) = S754_finite s m e.
Proof.
  intros [Hc He]%fexp_canonical. rewrite Prim2SF_1.
  unfold SF64mul, SFmul. rewrite xorb_false_r.
  rewrite Pos.mul_comm.
  let t := eval cbv in (4503599627370496 * m)%positive in
    change (4503599627370496 * m)%positive with t.
  unfold binary_round_aux, shr_fexp.
  cbn [Zdigits2 digits2_pos shr_record_of_loc].
  rewrite !Pos2Z.inj_succ.
  match goal with |- context [fexp prec emax ?a] =>
    replace a with (Z.pos (digits2_pos m) + e) by lia end.
  rewrite Hc. replace (e - (e + -52)) with 52 by lia.
  cbn [shr].
  match goal with |- context [SpecFloat.iter_pos shr_1 52 ?r] =>
    change (SpecFloat.iter_pos shr_1 52 r)
      with {| shr_m := Z.pos m; shr_r := false; shr_s := false |} end.
  cbn [shr_m loc_of_shr_record round_nearest_even Zdigits2].
  replace (e + -52 + 52) with e by lia.
  rewrite Hc, Z.sub_diag. cbn [shr shr_m].
  assert ((e <=? emax - prec) = true) as -> by (apply Z.leb_le; lia). done.
Qed.

(** Multiplying by 1 changes no number. *)
Lemma mul_one (x : float) : Prim2SF (x * 1) = Prim2SF x.
Proof.
  rewrite mul_spec. pose proof (Prim2SF_valid x) as Hv.
  destruct (Prim2SF x) as [s|s| |s m e]; try done.
  - by destruct s.
  - by destruct s.
  - by apply mul_one_finite.
Qed.

Lemma digits2_pos_iter p k :
  digits2_pos (Pos.iter xO p k) = (digits2_pos p + k)%positive.
Proof.
  induction k as [|k IH] using Pos.peano_ind.
  - cbn. by rewrite Pos.add_1_r.
  - rewrite Pos.iter_succ. cbn [digits2_pos]. by rewrite IH, Pos.add_succ_r.
Qed.

Lemma Zpos_iter p k : Z.pos (Pos.iter xO p k) = Z.pos p * 2 ^ Z.pos k.
Proof.
  induction k as [|k IH] using Pos.peano_ind.
  - cbn. lia.
  - rewrite Pos.iter_succ, Pos2Z.inj_xO, IH, Pos2Z.inj_succ.
    rewrite Z.pow_succ_r by lia. lia.
Qed.

Lemma pow2_nonpositive n : n <= 0 -> 2 ^ n <= 1.
Proof.
  intros Hn. destruct (Z.eq_dec n 0) as [->|Hne]; [done|].
  rewrite Z.pow_neg_r by lia. lia.
Qed.

Lemma digits2_pos_bound p n :
  Z.pos p < 2 ^ n -> Z.pos (digits2_pos p) <= n.
Proof.
  revert n. induction p as [p IH|p IH|]; intros n Hp.
  all: assert (0 < n)
    by (destruct (Z.le_gt_cases n 0) as [Hn|Hn]; [|done];
        pose proof (pow2_nonpositive n Hn); lia).
  - replace n with (Z.succ (n - 1)) in Hp by lia.
    rewrite Z.pow_succ_r in Hp by lia.
    cbn [digits2_pos]. rewrite Pos2Z.inj_succ.
    specialize (IH (n - 1)). lia.
  - replace n with (Z.succ (n - 1)) in Hp by lia.
    rewrite Z.pow_succ_r in Hp by lia.
    cbn [digits2_pos]. rewrite Pos2Z.inj_succ.
    specialize (IH (n - 1)). lia.
  - cbn. lia.
Qed.

(** A small positive integer as a float: its bits, shifted to 53
    digits. *)
Lemma Prim2SF_of_int p :
  Z.pos p < 2 ^ 32 ->
  exists k, Prim2SF (of_int (Z.pos p)) = S754_finite false (Pos.iter xO p k) (Z.neg k).
Proof.
  intros Hp. unfold of_int. rewrite of_uint63_spec, Uint63.of_Z_spec.
  assert (Uint63.wB = 9223372036854775808) as HwB by reflexivity.
  rewrite Z.mod_small by (rewrite HwB; lia).
  pose proof (digits2_pos_bound p 32 Hp) as Hd.
  unfold binary_normalize, binary_round, shl_align.
  assert (fexp prec emax (Z.pos (digits2_pos p) + 0)
          = Z.pos (digits2_pos p) - 53) as Hf.
  { unfold fexp, SpecFloat.emin, prec, emax. lia. }
  rewrite Hf.
  destruct (Z.pos (digits2_pos p) - 53 - 0) as [| |k] eqn:Hk; try lia.
  exists k.
  replace (Z.pos (digits2_pos p) - 53) with (Z.neg k) by lia.
  apply binary_round_aux_exact.
  - rewrite digits2_pos_iter, Pos2Z.inj_add.
    unfold fexp, SpecFloat.emin, prec, emax. lia.
  - unfold prec, emax. lia.
Qed.

Lemma ToUnsignedLong_of_int w :
  0 <= w < 2 ^ 32 -> ToUnsignedLong (of_int w) = w.
Proof.
  intros Hw. destruct w as [|p|p]; [done| |lia].
  destruct (Prim2SF_of_int p) as [k Hk]; [lia|].
  unfold ToUnsignedLong. rewrite Hk. cbn [Z.leb Z.compare Z.opp].
  rewrite Zpos_iter, Z.div_mul by lia.
  apply Z.mod_small. lia.
Qed.

(** At scale 1 a dimension is kept. *)
Lemma set_dimension_scale_1 default w :
  0 <= w <= 2147483647 -> set_dimension default (of_int w * 1) = w.
Proof.
  intros Hw. unfold set_dimension.
  assert (ToUnsignedLong (of_int w * 1) = w) as ->.
  { unfold ToUnsignedLong at 1. rewrite mul_one.
    fold (ToUnsignedLong (of_int w)). apply ToUnsignedLong_of_int. lia. }
  destruct (Z.ltb_spec 2147483647 w); [lia|done].
Qed.

Lemma digits2_pos_range p :
  2 ^ (Z.pos (digits2_pos p) - 1) <= Z.pos p < 2 ^ Z.pos (digits2_pos p).
Proof.
  induction p as [p IH|p IH|]; [| |cbn; lia].
  all: cbn [digits2_pos]; rewrite Pos2Z.inj_succ.
  all: replace (Z.succ (Z.pos (digits2_pos p)) - 1)
         with (Z.succ (Z.pos (digits2_pos p) - 1)) by lia.
  all: rewrite !Z.pow_succ_r by lia; lia.
Qed.

(** The mantissa of a number has at most 53 digits, and exactly 53 unless
    the number is subnormal. *)
Lemma finite_range m e :
  bounded prec emax m e = true ->
  Z.pos m < 2 ^ 53 /\ (e <> -1074 -> 2 ^ 52 <= Z.pos m).
Proof.
  intros [Hc He]%fexp_canonical.
  unfold fexp, SpecFloat.emin, prec, emax in Hc.
  pose proof (digits2_pos_range m) as [Hlo Hhi].
  split.
  - assert (Z.pos (digits2_pos m) <= 53) as Hd by lia.
    pose proof (Z.pow_le_mono_r 2 _ 53 ltac:(lia) Hd). lia.
  - intros Hne. assert (Z.pos (digits2_pos m) = 53) as Hd by lia.
    by rewrite Hd in Hlo.
Qed.

(** A positive integer below [2^32] as a float: the integer, shifted to
    53 digits. *)
Lemma Prim2SF_small n :
  0 < n < 2 ^ 32 ->
  exists m k,
    Prim2SF (of_int n) = S754_finite false m (- k) /\
    Z.pos m = n * 2 ^ k /\ 0 < k < 53 /\ 2 ^ 52 <= Z.pos m < 2 ^ 53.
Proof.
  intros Hn. destruct n as [|p|p]; try lia.
  destruct (Prim2SF_of_int p) as [k Hk]; [lia|].
  pose proof (Prim2SF_valid (of_int (Z.pos p))) as Hv. rewrite Hk in Hv.
  cbn [valid_binary] in Hv. apply finite_range in Hv as [Hhi Hlo].
  pose proof (Zpos_iter p k) as Hm.
  exists (Pos.iter xO p k), (Z.pos k).
  split; [done|]. split; [done|].
  assert (Z.pos k < 53) as Hk53.
  { destruct (Z.lt_ge_cases (Z.pos k) 53) as [|Hge]; [done|].
    pose proof (Z.pow_le_mono_r 2 53 (Z.pos k) ltac:(lia) ltac:(lia)). nia. }
  split; [lia|]. split; [apply Hlo; lia|done].
Qed.

Lemma digits2_pos_exact p n :
  2 ^ (n - 1) <= Z.pos p < 2 ^ n -> Z.pos (digits2_pos p) = n.
Proof.
  intros [Hlo Hhi]. pose proof (digits2_pos_range p) as [Hdlo Hdhi].
  destruct (Z.lt_trichotomy (Z.pos (digits2_pos p)) n) as [Hlt|[Heq|Hgt]];
    [|done|].
  - pose proof (Z.pow_le_mono_r 2 (Z.pos (digits2_pos p)) (n - 1)
                  ltac:(lia) ltac:(lia)). lia.
  - pose proof (Z.pow_le_mono_r 2 n (Z.pos (digits2_pos p) - 1)
                  ltac:(lia) ltac:(lia)). lia.
Qed.

Lemma shr_m_shr_1 mrs :
  0 <= shr_m mrs -> shr_m (shr_1 mrs) = shr_m mrs / 2.
Proof.
  destruct mrs as [m r s]. cbn [shr_m]. intros Hm.
  destruct m as [|[p|p|]|p]; cbn [shr_1 shr_m]; try lia.
  all: Z.div_mod_to_equations; lia.
Qed.

Lemma shr_m_iter p mrs :
  0 <= shr_m mrs ->
  shr_m (SpecFloat.iter_pos shr_1 p mrs) = shr_m mrs / 2 ^ Z.pos p.
Proof.
  revert mrs. induction p as [p IH|p IH|]; intros mrs Hm;
    cbn [SpecFloat.iter_pos].
  - assert (0 <= shr_m (shr_1 mrs)) as H1
      by (rewrite shr_m_shr_1 by done; apply Z.div_pos; lia).
    assert (0 < 2 ^ Z.pos p) as Hp by (apply Z.pow_pos_nonneg; lia).
    rewrite IH, IH, shr_m_shr_1 by
      (done || (rewrite IH by done; apply Z.div_pos; lia)).
    rewrite !Z.div_div by lia. f_equal.
    replace (Z.pos p~1) with (1 + Z.pos p + Z.pos p) by lia.
    rewrite !Z.pow_add_r by lia. change (2 ^ 1) with 2. ring.
  - assert (0 < 2 ^ Z.pos p) as Hp by (apply Z.pow_pos_nonneg; lia).
    rewrite IH, IH by
      (done || (rewrite IH by done; apply Z.div_pos; lia)).
    rewrite !Z.div_div by lia. f_equal.
    replace (Z.pos p~0) with (Z.pos p + Z.pos p) by lia.
    rewrite !Z.pow_add_r by lia. ring.
  - by rewrite shr_m_shr_1.
Qed.

Lemma shr_m_of_loc m l : shr_m (shr_record_of_loc m l) = m.
Proof. by destruct l as [|[]]. Qed.

(** The shift that brings a mantissa of [d >= 53] digits to 53. *)
Lemma shr_fexp_normal p e l d :
  Z.pos (digits2_pos p) = d -> 53 <= d -> -1074 <= d + e - 53 ->
  snd (shr_fexp prec emax (Z.pos p) e l) = e + (d - 53) /\
  shr_m (fst (shr_fexp prec emax (Z.pos p) e l)) = Z.pos p / 2 ^ (d - 53).
Proof.
  intros Hd H53 Hmin. unfold shr_fexp. cbn [Zdigits2]. rewrite Hd.
  assert (fexp prec emax (d + e) - e = d - 53) as ->
    by (unfold fexp, SpecFloat.emin, prec, emax; lia).
  unfold shr. destruct (d - 53) as [|n|n] eqn:Hn; try lia.
  - cbn [fst snd]. rewrite shr_m_of_loc, Z.div_1_r. split; [lia|done].
  - cbn [fst snd]. rewrite shr_m_iter, shr_m_of_loc by
      (rewrite shr_m_of_loc; lia). done.
Qed.

Lemma round_nearest_even_bounds m l :
  m <= round_nearest_even m l <= m + 1.
Proof.
  unfold round_nearest_even. destruct l as [|[]]; try lia.
  destruct (Z.even m); lia.
Qed.

(** The product of two normal positive numbers, away from overflow and
    underflow: a positive number whose exponent is the sum of the
    exponents, raised by 52 to 54. *)
Lemma mul_normal m1 e1 m2 e2 :
  2 ^ 52 <= Z.pos m1 < 2 ^ 53 -> 2 ^ 52 <= Z.pos m2 < 2 ^ 53 ->
  -1074 <= e1 + e2 + 52 -> e1 + e2 + 54 <= 971 ->
  exists m e,
    SF64mul (S754_finite false m1 e1) (S754_finite false m2 e2)
    = S754_finite false m e /\
    e1 + e2 + 52 <= e <= e1 + e2 + 54.
Proof.
  intros H1 H2 Hmin Hmax.
  assert (2 ^ 52 = 4503599627370496) as P52 by reflexivity.
  assert (2 ^ 53 = 9007199254740992) as P53 by reflexivity.
  assert (2 ^ 104 = 2 ^ 52 * 2 ^ 52) as P104 by reflexivity.
  assert (2 ^ 105 = 2 ^ 52 * 2 ^ 53) as P105 by reflexivity.
  assert (2 ^ 106 = 2 ^ 53 * 2 ^ 53) as P106 by reflexivity.
  assert (2 ^ 104 <= Z.pos (m1 * m2) < 2 ^ 106) as HM
    by (rewrite Pos2Z.inj_mul; nia).
  set (d := Z.pos (digits2_pos (m1 * m2))).
  assert (d = 105 \/ d = 106) as Hd.
  { destruct (Z.lt_ge_cases (Z.pos (m1 * m2)) (2 ^ 105)).
    - left. apply digits2_pos_exact. change (105 - 1) with 104. lia.
    - right. apply digits2_pos_exact. change (106 - 1) with 105. lia. }
  unfold SF64mul, SFmul. cbn [xorb]. unfold binary_round_aux.
  destruct (shr_fexp_normal (m1 * m2) (e1 + e2) loc_Exact d eq_refl
              ltac:(lia) ltac:(lia)) as [He' Hq].
  destruct (shr_fexp prec emax (Z.pos (m1 * m2)) (e1 + e2) loc_Exact)
    as [mrs' e']. cbn [fst snd] in He', Hq.
  pose proof (round_nearest_even_bounds (shr_m mrs')
                (loc_of_shr_record mrs')) as Hround.
  set (m' := round_nearest_even (shr_m mrs') (loc_of_shr_record mrs')) in *.
  assert (2 ^ 52 <= shr_m mrs' < 2 ^ 53) as Hq'.
  { pose proof (digits2_pos_range (m1 * m2)) as Hrange. fold d in Hrange.
    rewrite Hq. destruct Hd as [Hd|Hd]; rewrite Hd in *.
    - change (105 - 1) with 104 in Hrange. change (105 - 53) with 52. split.
      + apply Z.div_le_lower_bound; lia.
      + apply Z.div_lt_upper_bound; lia.
    - change (106 - 1) with 105 in Hrange. change (106 - 53) with 53. split.
      + apply Z.div_le_lower_bound; lia.
      + apply Z.div_lt_upper_bound; lia. }
  destruct m' as [|pm|pm] eqn:Hm'; try lia.
  set (d' := Z.pos (digits2_pos pm)).
  assert (d' = 53 \/ d' = 54) as Hd'.
  { destruct (Z.lt_ge_cases (Z.pos pm) (2 ^ 53)).
    - left. apply digits2_pos_exact. change (53 - 1) with 52. lia.
    - right. apply digits2_pos_exact. change (54 - 1) with 53.
      change (2 ^ 54) with 18014398509481984. lia. }
  destruct (shr_fexp_normal pm e' loc_Exact d' eq_refl
              ltac:(lia) ltac:(lia)) as [He'' Hq''].
  destruct (shr_fexp prec emax (Z.pos pm) e' loc_Exact) as [mrs'' e''].
  cbn [fst snd] in He'', Hq''.
  assert (0 < shr_m mrs'') as Hpos.
  { rewrite Hq''. destruct Hd' as [Hd'|Hd']; rewrite Hd'.
    - change (53 - 53) with 0. rewrite Z.div_1_r. lia.
    - change (54 - 53) with 1. apply Z.div_str_pos. change (2 ^ 1) with 2.
      lia. }
  destruct (shr_m mrs'') as [|m|m]; try lia.
  assert ((e'' <=? emax - prec) = true) as ->
    by (apply Z.leb_le; unfold emax, prec; lia).
  exists m, e''. split; [done|lia].
Qed.

Lemma pow2_lt_inv a b : 0 <= a -> 0 <= b -> 2 ^ a < 2 ^ b -> a < b.
Proof.
  intros Ha Hb H. destruct (Z.lt_ge_cases a b) as [|Hge]; [done|].
  pose proof (Z.pow_le_mono_r 2 b a ltac:(lia) Hge). lia.
Qed.

Lemma pow2_double a b : 0 <= a < b -> 2 * 2 ^ a <= 2 ^ b.
Proof.
  intros H. rewrite <- Z.pow_succ_r by lia. apply Z.pow_le_mono_r; lia.
Qed.

(** A source dimension times a scale between 1 and 16: a normal number
    between 1 and [2^31]. *)
Lemma scaled_dimension w s ms es :
  1 <= w < 2 ^ 26 ->
  Prim2SF s = S754_finite false ms es ->
  2 ^ 52 <= Z.pos ms < 2 ^ 53 -> -52 <= es <= -49 ->
  exists m e,
    Prim2SF (of_int w * s) = S754_finite false m e /\
    2 ^ 52 <= Z.pos m < 2 ^ 53 /\ -52 <= e <= -22.
Proof.
  intros Hw Hs Hms Hes.
  destruct (Prim2SF_small w) as (mw & k & Hmw & Hval & Hk & Hrange);
    [change (2 ^ 26) with 67108864 in Hw; change (2 ^ 32) with 4294967296;
     lia|].
  assert (26 < k) as Hk26.
  { apply pow2_lt_inv; [lia|lia|].
    assert (0 < 2 ^ k) by (apply Z.pow_pos_nonneg; lia).
    change (2 ^ 52) with (2 ^ 26 * 2 ^ 26) in Hrange. nia. }
  destruct (mul_normal mw (- k) ms es Hrange Hms ltac:(lia) ltac:(lia))
    as (m & e & Hmul & He).
  pose proof (Prim2SF_valid (of_int w * s)) as Hv.
  rewrite mul_spec, Hmw, Hs, Hmul in Hv. cbn [valid_binary] in Hv.
  apply finite_range in Hv as [Hhi Hlo].
  exists m, e. rewrite mul_spec, Hmw, Hs. split; [done|].
  split; [split; [apply Hlo; lia|done]|lia].
Qed.

(** The conversion to [unsigned long] of a number between 1 and [2^31]
    is the integer that is not above it, the next integer being above
    it. *)
Lemma ToUnsignedLong_floor p m e :
  Prim2SF p = S754_finite false m e ->
  2 ^ 52 <= Z.pos m < 2 ^ 53 -> -52 <= e <= -22 ->
  let n := ToUnsignedLong p in
  1 <= n <= 2147483647 /\
  (of_int n <=? p)%float = true /\ (p <? of_int (n + 1))%float = true.
Proof.
  intros Hp Hm He n.
  assert (2 ^ 52 = 4503599627370496) as P52 by reflexivity.
  assert (2 ^ 53 = 9007199254740992) as P53 by reflexivity.
  assert (2 ^ 22 = 4194304) as P22 by reflexivity.
  assert (2 ^ 32 = 4294967296) as P32 by reflexivity.
  set (P := 2 ^ (- e)).
  assert (2 ^ 22 <= P <= 2 ^ 52) as HP
    by (split; apply Z.pow_le_mono_r; lia).
  assert (n = Z.pos m / P) as Hn.
  { unfold n, ToUnsignedLong. rewrite Hp.
    destruct (Z.leb_spec 0 e); [lia|]. fold P.
    apply Z.mod_small. split; [apply Z.div_pos; lia|].
    apply Z.div_lt_upper_bound; nia. }
  assert (P * n <= Z.pos m < P * (n + 1)) as Hdiv.
  { rewrite Hn. split; [apply Z.mul_div_le; lia|].
    replace (Z.pos m / P + 1) with (Z.succ (Z.pos m / P)) by lia.
    apply Z.mul_succ_div_gt; lia. }
  assert (1 <= n <= 2147483647) as Hrange.
  { split.
    - rewrite Hn. apply Z.div_le_lower_bound; lia.
    - assert (n < 2147483648); [|lia].
      rewrite Hn. apply Z.div_lt_upper_bound; nia. }
  split; [done|]. split.
  - destruct (Prim2SF_small n) as (mn & k & Hmn & Hval & Hk & Hmnr); [lia|].
    rewrite FloatAxioms.leb_spec, Hmn, Hp. unfold SFleb, SFcompare.
    destruct (Z.compare_spec (- k) e) as [Heq|Hlt|Hgt]; [|done|].
    + assert (2 ^ k = P) as HkP by (unfold P; f_equal; lia).
      pose proof (Pos.compare_spec mn m) as Hc. unfold Pos.compare in Hc.
      destruct Hc; try done. nia.
    + pose proof (pow2_double k (- e) ltac:(lia)). fold P in H. nia.
  - destruct (Prim2SF_small (n + 1)) as (mn & k & Hmn & Hval & Hk & Hmnr);
      [lia|].
    rewrite FloatAxioms.ltb_spec, Hmn, Hp. unfold SFltb, SFcompare.
    destruct (Z.compare_spec e (- k)) as [Heq|Hlt|Hgt]; [|done|].
    + assert (2 ^ k = P) as HkP by (unfold P; f_equal; lia).
      pose proof (Pos.compare_spec m mn) as Hc. unfold Pos.compare in Hc.
      destruct Hc; try done; nia.
    + pose proof (pow2_double (- e) k ltac:(lia)). fold P in H. nia.
Qed.

(** The scales of the catalog are normal numbers between 1 and 16. *)
Lemma catalog_scale resolution :
  resolution ∈ RESOLUTIONS ->
  exists ms es,
    Prim2SF (dpi resolution / 72) = S754_finite false ms es /\
    2 ^ 52 <= Z.pos ms < 2 ^ 53 /\ -52 <= es <= -49.
Proof.
  intros Hr. unfold RESOLUTIONS in Hr.
  repeat (apply elem_of_cons in Hr as [->|Hr];
          [eexists _, _; split; [vm_compute; reflexivity|];
           split; [split; [apply Z.leb_le|apply Z.ltb_lt]|]; done|]).
  by apply elem_of_nil in Hr.
Qed.

(** A canvas dimension at a resolution of the catalog. *)
Lemma set_dimension_floor default w resolution :
  resolution ∈ RESOLUTIONS -> 1 <= w < 2 ^ 26 ->
  let p := (of_int w * (dpi resolution / 72))%float in
  let n := set_dimension default p in
  1 <= n /\ (of_int n <=? p)%float = true /\ (p <? of_int (n + 1))%float = true.
Proof.
  intros Hr Hw p n.
  destruct (catalog_scale resolution Hr) as (ms & es & Hs & Hms & Hes).
  destruct (scaled_dimension w _ ms es Hw Hs Hms Hes) as (m & e & Hp & Hm & He).
  destruct (ToUnsignedLong_floor p m e Hp Hm He) as (Hn & Hle & Hlt).
  assert (n = ToUnsignedLong p) as ->.
  { unfold n, set_dimension.
    destruct (Z.ltb_spec 2147483647 (ToUnsignedLong p)); [lia|done]. }
  split; [lia|done].
Qed.

(** A source without width or height gives a canvas without. *)
Lemma set_dimension_zero default (scale : float) :
  set_dimension default (of_int 0 * scale) = 0.
Proof.
  unfold set_dimension, ToUnsignedLong. rewrite mul_spec.
  change (Prim2SF (of_int 0)) with (S754_zero false).
  by destruct (Prim2SF scale) as [s|s| |s m e].
Qed.

End DimensionFacts.

(** C8, as the code has it.  For every source with dimensions from 1 to
    below [2^26] and every resolution of the catalog, the canvas takes
    [scaleFactor = dpi / 72] and the dimensions [src.width * scaleFactor]
    and [src.height * scaleFactor], computed in binary64 and truncated,
    not rounded: each dimension is the integer that is not above the
    product while the next integer is above it, and it is at least 1;
    with [dpi = 72] the canvas has the width and the height of the
    source. *)
Theorem resample_dimensions (drawImage : Resampler) (img : Image)
  (resolution : Resolution) :
  resolution ∈ RESOLUTIONS ->
  1 <= img_width img < 2 ^ 26 -> 1 <= img_height img < 2 ^ 26 ->
  let scaleFactor := (dpi resolution / 72)%float in
  let scaledWidth := (of_int (img_width img) * scaleFactor)%float in
  let scaledHeight := (of_int (img_height img) * scaleFactor)%float in
  let canvas := resample drawImage img resolution in
  (1 <= canvas_width canvas /\
   (of_int (canvas_width canvas) <=? scaledWidth)%float = true /\
   (scaledWidth <? of_int (canvas_width canvas + 1))%float = true) /\
  (1 <= canvas_height canvas /\
   (of_int (canvas_height canvas) <=? scaledHeight)%float = true /\
   (scaledHeight <? of_int (canvas_height canvas + 1))%float = true) /\
  (dpi resolution = 72%float ->
   canvas_width canvas = img_width img /\
   canvas_height canvas = img_height img).
Proof.
  intros Hr Hw Hh scaleFactor scaledWidth scaledHeight canvas.
  split; [by apply set_dimension_floor|].
  split; [by apply set_dimension_floor|].
  intros Hdpi. unfold canvas, resample. cbn [canvas_width canvas_height].
  rewrite Hdpi. change (72 / 72)%float with 1%float.
  change (2 ^ 26) with 67108864 in Hw, Hh.
  by rewrite !set_dimension_scale_1 by lia.
Qed.

Lemma resample_dimensions_witness :
  let canvas := resample nearest_sample image_7x3 {| dpi := 150 |} in
  (canvas_width canvas = 14 /\ canvas_height canvas = 6) /\
  (1 <= canvas_width canvas /\
   (of_int (canvas_width canvas) <=? of_int 7 * (150 / 72))%float = true /\
   (of_int 7 * (150 / 72) <? of_int (canvas_width canvas + 1))%float = true)
  /\
  (1 <= canvas_height canvas /\
   (of_int (canvas_height canvas) <=? of_int 3 * (150 / 72))%float = true /\
   (of_int 3 * (150 / 72) <? of_int (canvas_height canvas + 1))%float = true).
Proof.
  split; [split; vm_compute; reflexivity|].
  destruct (resample_dimensions nearest_sample image_7x3 {| dpi := 150 |})
    as (Hwidth & Hheight & _).
  - unfold RESOLUTIONS. right. left.
  - cbn. lia.
  - cbn. lia.
  - split; [exact Hwidth|exact Hheight].
Defined.

(** C8, as stated, fails: at 150 dpi, a resolution of the catalog, a
    source 7 pixels wide has the scaled width 14.58, rounded 15, and the
    canvas is 14 pixels wide. *)
Lemma resample_not_rounded :
  ~ (forall (drawImage : Resampler) (img : Image) (resolution : Resolution),
       resolution ∈ RESOLUTIONS ->
       0 < img_width img -> 0 < img_height img ->
       let scaleFactor := (dpi resolution / 72)%float in
       let canvas := resample drawImage img resolution in
       canvas_width canvas
         = Z.max 1 (Math_round (of_int (img_width img) * scaleFactor)) /\
       canvas_height canvas
         = Z.max 1 (Math_round (of_int (img_height img) * scaleFactor))).
Proof.
  intros H.
  destruct (H nearest_sample image_7x7 {| dpi := 150 |}) as [Hw _];
    [unfold RESOLUTIONS; right; left | cbn; lia | cbn; lia |].
  vm_compute in Hw. discriminate Hw.
Qed.

(** ** Sources without pixels *)

(** C9, as the code has it.  For every source whose width or height is 0
    the canvas has no pixels, the first [getImageData] throws the
    [IndexSizeError] of the platform inside the [onload] handler, no
    image is stored, and the promise of [enhanceImage] stays pending:
    no error reaches the caller, and [enhanceImage] rejects for no
    input. *)
Theorem enhance_without_pixels (drawImage : Resampler) (toDataURL : Encoder)
  (st : AppState) (img : Image) :
  image st = Some img ->
  img_width img = 0 \/ img_height img = 0 ->
  enhanceImage drawImage toDataURL st
    = Pending (set_processing true st) IndexSizeError
  /\ image (set_processing true st) = image st
  /\ forall st0 st' e, enhanceImage drawImage toDataURL st0 <> Rejected st' e.
Proof.
  intros Himg Hzero. split; [|split; [done|]].
  - unfold enhanceImage. rewrite Himg.
    cbn [selectedResolution selectedPreset set_processing].
    rewrite pipeline_stage_order_zero; [done|].
    unfold resample. cbn [canvas_width canvas_height].
    destruct Hzero as [-> | ->]; rewrite set_dimension_zero;
      [done | apply orb_true_r].
  - intros st0 st' e. unfold enhanceImage.
    destruct (image st0); [|done]. by destruct (onload _ _ _ _).
Qed.

Lemma enhance_without_pixels_witness :
  enhanceImage nearest_sample opaque_sample state_0x5
    = Pending (set_processing true state_0x5) IndexSizeError
  /\ image (set_processing true state_0x5) = image state_0x5
  /\ forall st0 st' e,
       enhanceImage nearest_sample opaque_sample st0 <> Rejected st' e.
Proof.
  apply (enhance_without_pixels nearest_sample opaque_sample state_0x5
           image_0x5).
  - reflexivity.
  - left. reflexivity.
Defined.

(** C9, as stated, fails: for a source 0 pixels wide [enhanceImage] does
    not end in an error handed to its caller. *)
Lemma enhance_zero_width_not_rejected :
  ~ (forall (drawImage : Resampler) (toDataURL : Encoder) (st : AppState)
       (img : Image),
       image st = Some img ->
       img_width img = 0 \/ img_height img = 0 ->
       exists st' e, enhanceImage drawImage toDataURL st = Rejected st' e).
Proof.
  intros H.
  destruct (H nearest_sample opaque_sample state_0x5 image_0x5)
    as (st' & e & Hrej);
    [reflexivity | by left |].
  vm_compute in Hrej. discriminate Hrej.
Qed.

(** * Further properties of the pipeline *)

(** ** Valid buffers *)

Section BufferFacts.

Lemma effect_bytes data data' :
  stage_effect data data' ->
  forallb is_byte data = true -> forallb is_byte data' = true.
Proof.
  intros [Hlen H] Hbytes. rewrite forallb_forall in *.
  intros b Hb. apply list_elem_of_In, list_elem_of_lookup in Hb as [n Hn].
  assert (byte_at data' (Z.of_nat n) = Some b) as Hat.
  { unfold byte_at. destruct (Z.ltb_spec (Z.of_nat n) 0); [lia|].
    by rewrite Nat2Z.id. }
  destruct (H (Z.of_nat n)) as [E|[_ [v Hv]]].
  - rewrite E in Hat. apply Hbytes, list_elem_of_In.
    unfold byte_at in Hat. destruct (Z.of_nat n <? 0); [done|].
    by eapply list_elem_of_lookup_2.
  - rewrite Hv in Hat. injection Hat as <-.
    pose proof (ToUint8Clamp_range v). unfold is_byte.
    apply andb_true_iff. split; apply Z.leb_le; lia.
Qed.

Lemma effect_buffer width height data data' :
  stage_effect data data' ->
  buffer_of width height data -> buffer_of width height data'.
Proof.
  intros He [Hw Hh Hlen Hbytes]. constructor; try done.
  - destruct He as [-> _]. done.
  - by eapply effect_bytes.
Qed.

End BufferFacts.

Section CanvasFacts.

(** A run of the stages that ends is a run of [applyImageEnhancements]
    that ends, on a canvas with pixels. *)
Lemma applyImageEnhancements_run width height settings cv out :
  width <> 0 -> height <> 0 ->
  run_stages width height settings stage_order (bitmap cv) = Done out ->
  applyImageEnhancements width height settings cv
  = Done (tt, with_bitmap cv out).
Proof.
  intros Hw Hh Hrun. rewrite applyImageEnhancements_stages, Hrun.
  apply Z.eqb_neq in Hw, Hh. by rewrite Hw, Hh.
Qed.

Lemma applyDenoise_run width height strength cv out :
  width <> 0 -> height <> 0 ->
  denoise_pass width height strength (bitmap cv) = Done out ->
  applyDenoise width height strength cv = Done (tt, with_bitmap cv out).
Proof.
  intros Hw Hh Hrun. rewrite applyDenoise_pass, Hrun.
  apply Z.eqb_neq in Hw, Hh. by rewrite Hw, Hh.
Qed.

Lemma applyDeblur_run width height strength cv out :
  width <> 0 -> height <> 0 ->
  deblur_pass width height strength (bitmap cv) = Done out ->
  applyDeblur width height strength cv = Done (tt, with_bitmap cv out).
Proof.
  intros Hw Hh Hrun. rewrite applyDeblur_pass, Hrun.
  apply Z.eqb_neq in Hw, Hh. by rewrite Hw, Hh.
Qed.

End CanvasFacts.

(** X1. On a canvas with pixels whose bitmap is the buffer of a [width] by
    [height] image, [applyDenoise] and [applyDeblur] with a positive
    strength and [applyImageEnhancements] with any settings end, leave
    the width and the height of the canvas as they are, and leave a
    bitmap that is again the buffer of a [width] by [height] image: as
    many bytes, each within [0, 255]. *)
Theorem stages_keep_buffers (width height : Z) (settings : Settings)
  (strength : float) (cv : Canvas) :
  width <> 0 -> height <> 0 ->
  buffer_of width height (bitmap cv) ->
  ((0 <? strength)%float = true ->
   (exists data',
      applyDenoise width height strength cv = Done (tt, with_bitmap cv data')
      /\ buffer_of width height data') /\
   (exists data',
      applyDeblur width height strength cv = Done (tt, with_bitmap cv data')
      /\ buffer_of width height data')) /\
  (exists data',
     applyImageEnhancements width height settings cv
     = Done (tt, with_bitmap cv data') /\
     buffer_of width height data').
Proof.
  intros Hw Hh Hbuf. split; [intros Hpos; split|].
  - destruct (denoise_effect width height strength (bitmap cv) Hpos)
      as (d & Hd & He).
    exists d. split; [by apply applyDenoise_run|by eapply effect_buffer].
  - destruct (deblur_effect width height strength (bitmap cv) Hpos)
      as (d & Hd & He).
    exists d. split; [by apply applyDeblur_run|by eapply effect_buffer].
  - destruct (run_stages_effect width height settings stage_order (bitmap cv))
      as (d & Hd & He).
    exists d.
    split; [by apply applyImageEnhancements_run|by eapply effect_buffer].
Qed.

Lemma stages_keep_buffers_witness :
  ((exists data',
      applyDenoise 3 3 0.5 canvas_3x3 = Done (tt, with_bitmap canvas_3x3 data')
      /\ buffer_of 3 3 data') /\
   (exists data',
      applyDeblur 3 3 0.5 canvas_3x3 = Done (tt, with_bitmap canvas_3x3 data')
      /\ buffer_of 3 3 data')) /\
  (exists data',
     applyImageEnhancements 3 3 HDR canvas_3x3
     = Done (tt, with_bitmap canvas_3x3 data') /\
     buffer_of 3 3 data').
Proof.
  destruct (stages_keep_buffers 3 3 HDR 0.5 canvas_3x3) as [Hstages Hall].
  - lia.
  - lia.
  - constructor; [lia|lia|reflexivity|reflexivity].
  - split; [apply Hstages; reflexivity|exact Hall].
Defined.

(** ** Completion *)

Section CompletionFacts.

Lemma onload_stages drawImage img resolution settings :
  let canvas := resample drawImage img resolution in
  (canvas_width canvas =? 0) || (canvas_height canvas =? 0) = false ->
  onload drawImage img resolution settings =
    outcome_bind
      (run_stages (canvas_width canvas) (canvas_height canvas) settings
         stage_order (bitmap canvas))
      (fun data => Done (with_bitmap canvas data)).
Proof.
  intros canvas Hzero. unfold onload. fold canvas.
  rewrite applyImageEnhancements_stages, Hzero.
  by destruct (run_stages _ _ _ _ _).
Qed.

Lemma nonzero_dimensions w h :
  w <> 0 -> h <> 0 -> (w =? 0) || (h =? 0) = false.
Proof.
  intros Hw Hh. apply orb_false_iff. split; by apply Z.eqb_neq.
Qed.

End CompletionFacts.



(** ** Images smaller than a window *)

Section SmallImageFacts.

(** A loop nest without cells stores nothing. *)
Lemma raster_empty width enabled value y0 y1 x0 x1 data :
  x1 <= x0 \/ y1 <= y0 ->
  raster width enabled value y0 y1 x0 x1 data = data.
Proof.
  intros Hempty. apply byte_at_ext. intros i. apply raster_miss. lia.
Qed.

End SmallImageFacts.

(** X3. On an image that is not wider or not higher than twice the radius
    no pixel has a full window, and the filter gives the buffer back byte
    for byte: denoise and deblur for their radius, sharpen for an image
    less than 3 pixels wide or high.  This holds for every buffer. *)
Theorem small_image_untouched (width height : Z) (settings : Settings)
  (data : list Z) :
  (forall strength r,
     Math_ceil (strength * 2) = CeilInt r ->
     width <= 2 * r \/ height <= 2 * r ->
     denoise_pass width height strength data = Done data) /\
  (forall strength r,
     Math_ceil (strength * 3) = CeilInt r ->
     width <= 2 * r \/ height <= 2 * r ->
     deblur_pass width height strength data = Done data) /\
  (width <= 2 \/ height <= 2 ->
   sharpen_pass width height settings data = data).
Proof.
  split; [|split].
  - intros strength r Hr Hsmall. unfold denoise_pass. rewrite Hr. f_equal.
    rewrite denoise_loops_raster. apply raster_empty. lia.
  - intros strength r Hr Hsmall. unfold deblur_pass. rewrite Hr. f_equal.
    rewrite deblur_loops_raster. apply raster_empty. lia.
  - intros Hsmall. unfold sharpen_pass.
    destruct (1 <? sharpness settings)%float; [|done].
    rewrite sharpen_loops_raster. apply raster_empty. lia.
Qed.

Lemma small_image_untouched_witness :
  denoise_pass 2 2 0.3 sample_2x2 = Done sample_2x2 /\
  deblur_pass 2 2 0.5 sample_2x2 = Done sample_2x2 /\
  sharpen_pass 2 2 Clarity sample_2x2 = sample_2x2.
Proof.
  destruct (small_image_untouched 2 2 Clarity sample_2x2) as (Hd & Hb & Hs).
  split; [|split].
  - apply (Hd 0.3%float 1); [reflexivity | lia].
  - apply (Hb 0.5%float 2); [reflexivity | lia].
  - apply Hs. lia.
Defined.

(** ** Neutral settings *)

Section NeutralFacts.

Lemma tone_unit_pass settings data :
  brightness settings = 1%float -> contrast settings = 1%float ->
  forallb is_byte data = true ->
  tone_pass settings data = data.
Proof.
  intros Hb Hc Hbytes. apply byte_at_ext. intros i.
  rewrite tone_pass_spec. case_decide; [done|].
  destruct (byte_at data i) as [v|] eqn:Hv; [|done]. cbn. f_equal.
  unfold tone_byte. rewrite Hb, Hc.
  assert (is_byte v = true) as Hbyte.
  { rewrite forallb_forall in Hbytes. apply Hbytes, list_elem_of_In.
    unfold byte_at in Hv. destruct (i <? 0); [done|].
    by eapply list_elem_of_lookup_2. }
  apply Z.eqb_eq.
  apply (byte_cases (fun v => contrast_step 1 (brightness_step 1 v) =? v));
    [|done].
  vm_compute. reflexivity.
Qed.

Lemma with_bitmap_same cv : with_bitmap cv (bitmap cv) = cv.
Proof. by destruct cv. Qed.

End NeutralFacts.

(** X4. With settings that switch every optional stage off (denoise and
    deblur not above 0, sharpness not above 1) and brightness and
    contrast 1, the whole pipeline is the identity: the handler gives
    back the resampled canvas, byte for byte. *)
Theorem neutral_settings_identity (drawImage : Resampler) (img : Image)
  (resolution : Resolution) (settings : Settings) :
  (0 <? denoise settings)%float = false ->
  (0 <? deblur settings)%float = false ->
  (sharpness settings <=? 1)%float = true ->
  brightness settings = 1%float ->
  contrast settings = 1%float ->
  let canvas := resample drawImage img resolution in
  canvas_width canvas <> 0 -> canvas_height canvas <> 0 ->
  forallb is_byte (bitmap canvas) = true ->
  onload drawImage img resolution settings = Done canvas.
Proof.
  intros Hden Hdeb Hsharp Hb Hc canvas Hw Hh Hbytes.
  rewrite onload_stages by (by apply nonzero_dimensions). fold canvas.
  unfold run_stages, run_stage, stage_order.
  cbn [fold_left stage_runs stage_body outcome_bind].
  rewrite Hden, Hdeb, (leb_not_ltb _ _ Hsharp). cbn [outcome_bind].
  by rewrite tone_unit_pass, with_bitmap_same.
Qed.

Lemma neutral_settings_identity_witness :
  onload nearest_sample image_3x3 {| dpi := 72 |} neutral
  = Done (resample nearest_sample image_3x3 {| dpi := 72 |}).
Proof.
  apply (neutral_settings_identity nearest_sample image_3x3 {| dpi := 72 |}
           neutral); try reflexivity.
  - vm_compute. discriminate.
  - vm_compute. discriminate.
Defined.

(** ** The filters against their specifications *)

Section FilterFacts.

Lemma denoise_pass_meets_spec width height strength data :
  buffer_of width height data ->
  (0 <? strength)%float = true ->
  exists data',
    denoise_pass width height strength data = Done data' /\
    denoise_spec width height strength data data'.
Proof.
  intros Hbuf Hpos. unfold denoise_pass, denoise_spec.
  pose proof (radius_of_positive strength 2 _ _ Hpos eq_refl) as Hrad.
  destruct (Math_ceil (strength * 2)) as [|[]|r]; try discriminate Hrad.
  - eexists; split; [reflexivity|]. done.
  - eexists; split; [reflexivity|]. done.
  - eexists; split; [reflexivity|]. rewrite denoise_loops_raster.
    split; [apply raster_length|]. split; [done|]. split.
    + intros x y c Hfull Hc. pose proof Hfull as [Hx Hy].
      assert (0 <= pixel_index width x y c < Z.of_nat (length data)) as Hin.
      { replace x with (x + 0) by lia. replace y with (y + 0) by lia.
        apply (window_in_range width height data Hbuf r); [done|lia..]. }
      destruct (byte_at_in_range data _ Hin) as [original Horig].
      pose proof (window_values_length width height data Hbuf r x y c
                    Hrad Hfull ltac:(lia)) as Hlen.
      set (values := window_values data width r x y c) in *.
      assert (is_Some (merge_sort Z.le values
                         !! (length (merge_sort Z.le values) / 2)%nat))
        as [median Hmed].
      { apply lookup_lt_is_Some, half_lt. rewrite merge_sort_length. nia. }
      exists original, (merge_sort Z.le values), median.
      split; [done|]. split; [apply Sorted_merge_sort; apply _|].
      split; [apply merge_sort_Permutation|].
      split; [by rewrite merge_sort_length|]. split; [done|].
      rewrite raster_hit by (try done; lia).
      unfold denoise_value.
      rewrite (denoise_neighbors_values width height data Hbuf) by (done || lia).
      fold values. rewrite median_of_values, Hmed.
      unfold u8_get. rewrite Horig. done.
    + intros x y c Hx Hy Hc Hnot. apply raster_miss.
      intros x' y' c' Hy' Hx' Hc' _ Heq.
      apply pixel_index_inj in Heq as (-> & -> & ->); [|lia..].
      apply Hnot. split; lia.
Qed.

Lemma deblur_pass_meets_spec width height strength data :
  buffer_of width height data ->
  (0 <? strength)%float = true ->
  exists data',
    deblur_pass width height strength data = Done data' /\
    deblur_spec width height strength data data'.
Proof.
  intros Hbuf Hpos. unfold deblur_pass, deblur_spec.
  pose proof (radius_of_positive strength 3 _ _ Hpos eq_refl) as Hrad.
  destruct (Math_ceil (strength * 3)) as [|[]|r]; try discriminate Hrad.
  - eexists; split; [reflexivity|]. done.
  - eexists; split; [reflexivity|]. done.
  - eexists; split; [reflexivity|]. rewrite deblur_loops_raster.
    split; [apply raster_length|]. split; [done|]. split.
    + intros x y c Hfull Hc. pose proof Hfull as [Hx Hy].
      assert (0 <= pixel_index width x y c < Z.of_nat (length data)) as Hin.
      { replace x with (x + 0) by lia. replace y with (y + 0) by lia.
        apply (window_in_range width height data Hbuf r); [done|lia..]. }
      destruct (byte_at_in_range data _ Hin) as [original Horig].
      exists original. split; [done|].
      split; [by apply (window_values_length width height); try lia|].
      cbn zeta. rewrite raster_hit by (try done; lia).
      unfold deblur_diff, u8_get.
      rewrite (deblur_avg_mean width height) by (done || lia).
      rewrite Horig. cbn [to_number]. reflexivity.
    + intros x y c Hx Hy Hc Hnot. apply raster_miss.
      intros x' y' c' Hy' Hx' Hc' _ Heq.
      apply pixel_index_inj in Heq as (-> & -> & ->); [|lia..].
      apply Hnot. split; lia.
Qed.

(** A property of pairs of bytes can be checked on the 65536 of them. *)
Lemma byte_pairs (P : Z -> Z -> bool) :
  forallb (fun a => forallb (P a) (seqZ 0 256)) (seqZ 0 256) = true ->
  forall a b, is_byte a = true -> is_byte b = true -> P a b = true.
Proof.
  intros H a b Ha Hb.
  apply (byte_cases (P a)); [|done].
  by apply (byte_cases (fun a => forallb (P a) (seqZ 0 256))).
Qed.

(** A property of the presets can be checked on the four of them. *)
Lemma preset_cases (P : Settings -> Prop) :
  P Balanced -> P Clarity -> P HDR -> P AI_Enhance ->
  forall preset, preset ∈ ENHANCEMENT_PRESETS -> P preset.
Proof.
  intros H1 H2 H3 H4 preset Hp. unfold ENHANCEMENT_PRESETS in Hp.
  repeat (apply elem_of_cons in Hp as [->|Hp]; [done|]).
  by apply elem_of_nil in Hp.
Qed.

Context (width height : Z) (data : list Z).
Hypothesis Hbuf : buffer_of width height data.

Lemma window_values_bytes r x y c v :
  v ∈ window_values data width r x y c -> is_byte v = true.
Proof.
  unfold window_values. intros (i & _ & Hi)%list_elem_of_omap.
  by eapply buffer_byte_at.
Qed.

(** The pixel is in its own window. *)
Lemma centre_in_window r x y c original :
  0 <= r ->
  byte_at data (pixel_index width x y c) = Some original ->
  original ∈ window_values data width r x y c.
Proof.
  intros Hr Ho. unfold window_values. apply list_elem_of_omap.
  exists (pixel_index width x y c). split; [|done].
  unfold window_cells. apply list_elem_of_bind. exists 0. split.
  - apply list_elem_of_bind. exists 0. split.
    + rewrite !Z.add_0_r. by apply list_elem_of_singleton.
    + apply elem_of_seqZ. lia.
  - apply elem_of_seqZ. lia.
Qed.

End FilterFacts.

(** ** Stores between two bytes *)

Section ClampFacts.

(** A positive byte as a float: the byte, shifted to 53 digits. *)
Lemma Prim2SF_byte b :
  0 < b <= 255 ->
  exists m k,
    Prim2SF (of_int b) = S754_finite false m (- k) /\
    Z.pos m = b * 2 ^ k /\ 0 < k < 1074 /\ 2 ^ 52 <= Z.pos m < 2 ^ 53.
Proof.
  intros Hb. destruct b as [|p|p]; try lia.
  destruct (Prim2SF_of_int p) as [k Hk]; [lia|].
  pose proof (Prim2SF_valid (of_int (Z.pos p))) as Hv. rewrite Hk in Hv.
  cbn [valid_binary] in Hv. apply finite_range in Hv as [Hhi Hlo].
  pose proof (Zpos_iter p k) as Hm.
  exists (Pos.iter xO p k), (Z.pos k).
  split; [done|]. split; [done|].
  assert (Z.pos k < 53) as Hk53.
  { destruct (Z.lt_ge_cases (Z.pos k) 53) as [|Hge]; [done|].
    pose proof (Z.pow_le_mono_r 2 53 (Z.pos k) ltac:(lia) ltac:(lia)). nia. }
  split; [lia|]. split; [apply Hlo; lia|done].
Qed.

Lemma round_half_even_bounds n d :
  0 < d -> n / d <= round_half_even n d <= n / d + 1.
Proof.
  intros Hd. unfold round_half_even.
  repeat match goal with |- context [if ?c then _ else _] => destruct c end;
    lia.
Qed.

Lemma round_half_even_below n d b :
  0 < d -> n <= b * d -> round_half_even n d <= b.
Proof.
  intros Hd Hn. unfold round_half_even.
  assert (n / d <= b) as Hq by (apply Z.div_le_upper_bound; lia).
  destruct (Z.eq_dec (n / d) b) as [Heq|Hne].
  - assert (n mod d = 0) as Hr.
    { pose proof (Z.mod_pos_bound n d Hd).
      pose proof (Z.div_mod n d ltac:(lia)). nia. }
    rewrite Hr. destruct (Z.ltb_spec (2 * 0) d); lia.
  - repeat match goal with |- context [if ?c then _ else _] => destruct c end;
      lia.
Qed.

Lemma round_half_even_above n d b :
  0 < d -> b * d <= n -> b <= round_half_even n d.
Proof.
  intros Hd Hn. pose proof (round_half_even_bounds n d Hd).
  assert (b <= n / d) by (apply Z.div_le_lower_bound; lia). lia.
Qed.

(** The store of a number that is not below a byte is not below it. *)
Lemma clamp_lower b x :
  is_byte b = true -> (of_int b <=? x)%float = true -> b <= ToUint8Clamp x.
Proof.
  intros Hb Hle. unfold is_byte in Hb. apply andb_true_iff in Hb as [Hb0 Hb1].
  apply Z.leb_le in Hb0, Hb1.
  destruct (Z.eq_dec b 0) as [->|Hne]; [apply ToUint8Clamp_range|].
  destruct (Prim2SF_byte b) as (mb & k & Hmb & Hval & Hk & Hrange); [lia|].
  rewrite FloatAxioms.leb_spec, Hmb in Hle.
  pose proof (Prim2SF_valid x) as Hv. unfold ToUint8Clamp.
  destruct (Prim2SF x) as [s|[]| |[] m e];
    try (cbn in Hle; discriminate Hle); [lia|].
  cbn [valid_binary] in Hv. apply finite_range in Hv as [Hhi Hlo].
  unfold SFleb, SFcompare in Hle.
  assert (0 < 2 ^ k) as Hpk by (apply Z.pow_pos_nonneg; lia).
  destruct (Z.compare_spec (- k) e) as [He|He|He]; try discriminate Hle.
  - subst e. destruct (Z.leb_spec 0 (- k)); [lia|].
    rewrite Z.opp_involutive.
    assert (Z.pos mb <= Z.pos m) as Hm.
    { pose proof (Pos.compare_spec mb m) as Hc. unfold Pos.compare in Hc.
      destruct Hc; try discriminate Hle; lia. }
    apply Z.min_glb; [lia|]. apply round_half_even_above; lia.
  - specialize (Hlo ltac:(lia)).
    destruct (Z.leb_spec 0 e).
    + assert (0 < 2 ^ e) by (apply Z.pow_pos_nonneg; lia).
      assert (2 ^ 52 = 4503599627370496) as Hp by reflexivity.
      apply Z.min_glb; [lia|]. nia.
    + apply Z.min_glb; [lia|].
      assert (0 < 2 ^ (- e)) as Hpe by (apply Z.pow_pos_nonneg; lia).
      apply round_half_even_above; [done|].
      assert (2 ^ k = 2 ^ (- e) * 2 ^ (k + e)) as Hsplit
        by (rewrite <- Z.pow_add_r by lia; f_equal; lia).
      assert (2 <= 2 ^ (k + e)) as H2.
      { change 2 with (2 ^ 1) at 1. apply Z.pow_le_mono_r; lia. }
      nia.
Qed.

(** The store of a number that is not above a byte is not above it. *)
Lemma clamp_upper b x :
  is_byte b = true -> (x <=? of_int b)%float = true -> ToUint8Clamp x <= b.
Proof.
  intros Hb Hle. unfold is_byte in Hb. apply andb_true_iff in Hb as [Hb0 Hb1].
  apply Z.leb_le in Hb0, Hb1.
  rewrite FloatAxioms.leb_spec in Hle.
  pose proof (Prim2SF_valid x) as Hv. unfold ToUint8Clamp.
  destruct (Z.eq_dec b 0) as [->|Hne].
  { change (Prim2SF (of_int 0)) with (S754_zero false) in Hle.
    destruct (Prim2SF x) as [s|[]| |[] m e];
      try (cbn in Hle; discriminate Hle); lia. }
  destruct (Prim2SF_byte b) as (mb & k & Hmb & Hval & Hk & Hrange); [lia|].
  rewrite Hmb in Hle.
  destruct (Prim2SF x) as [s|[]| |[] m e];
    try (cbn in Hle; discriminate Hle); try lia.
  cbn [valid_binary] in Hv. apply finite_range in Hv as [Hhi Hlo].
  unfold SFleb, SFcompare in Hle.
  assert (0 < 2 ^ k) as Hpk by (apply Z.pow_pos_nonneg; lia).
  destruct (Z.compare_spec e (- k)) as [He|He|He]; try discriminate Hle.
  - subst e. destruct (Z.leb_spec 0 (- k)); [lia|].
    rewrite Z.opp_involutive.
    assert (Z.pos m <= Z.pos mb) as Hm.
    { pose proof (Pos.compare_spec m mb) as Hc. unfold Pos.compare in Hc.
      destruct Hc; try discriminate Hle; lia. }
    apply Z.min_le_iff. right. apply round_half_even_below; lia.
  - destruct (Z.leb_spec 0 e); [lia|].
    apply Z.min_le_iff. right.
    assert (0 < 2 ^ (- e)) as Hpe by (apply Z.pow_pos_nonneg; lia).
    apply round_half_even_below; [done|].
    assert (2 ^ (- e) = 2 ^ k * 2 ^ (- e - k)) as Hsplit
      by (rewrite <- Z.pow_add_r by lia; f_equal; lia).
    assert (2 <= 2 ^ (- e - k)) as H2.
    { change 2 with (2 ^ 1) at 1. apply Z.pow_le_mono_r; lia. }
    nia.
Qed.

Lemma bracket_sound lo hi x :
  is_byte lo = true -> is_byte hi = true -> bracket lo hi x = true ->
  lo <= ToUint8Clamp x <= hi.
Proof.
  intros Hlo Hhi [H1 H2]%andb_true_iff. split.
  - destruct (of_int lo <=? x)%float eqn:E; [by apply clamp_lower|].
    by apply Z.leb_le.
  - destruct (x <=? of_int hi)%float eqn:E; [by apply clamp_upper|].
    by apply Z.leb_le.
Qed.

Lemma is_byte_min a b :
  is_byte a = true -> is_byte b = true -> is_byte (Z.min a b) = true.
Proof.
  unfold is_byte. rewrite !andb_true_iff, !Z.leb_le. lia.
Qed.

Lemma is_byte_max a b :
  is_byte a = true -> is_byte b = true -> is_byte (Z.max a b) = true.
Proof.
  unfold is_byte. rewrite !andb_true_iff, !Z.leb_le. lia.
Qed.

End ClampFacts.

(** ** Denoise: the range of the output *)

Section BlendFacts.

Lemma blend_between preset original median :
  preset ∈ ENHANCEMENT_PRESETS ->
  is_byte original = true -> is_byte median = true ->
  Z.min original median <= denoise_blend (denoise preset) original median
    <= Z.max original median.
Proof.
  intros Hp Ho Hm.
  apply bracket_sound; [by apply is_byte_min|by apply is_byte_max|].
  revert original median Ho Hm. revert preset Hp.
  apply (preset_cases (fun preset => forall o m,
           is_byte o = true -> is_byte m = true ->
           bracket (Z.min o m) (Z.max o m)
             (blend_number (denoise preset) o m) = true)).
  all: apply (byte_pairs (fun o m =>
           bracket (Z.min o m) (Z.max o m) (blend_number _ o m))).
  all: vm_cast_no_check (eq_refl true).
Qed.

Lemma blend_full_strength original median :
  is_byte original = true -> is_byte median = true ->
  denoise_blend 1 original median = median.
Proof.
  intros Ho Hm.
  assert (median <= denoise_blend 1 original median <= median) as H; [|lia].
  apply bracket_sound; [done|done|].
  revert original median Ho Hm.
  apply (byte_pairs (fun o m => bracket m m (blend_number 1 o m))).
  vm_cast_no_check (eq_refl true).
Qed.

Lemma preset_denoise_radius preset :
  preset ∈ ENHANCEMENT_PRESETS ->
  (0 <? denoise preset)%float = true /\
  exists r, Math_ceil (denoise preset * 2) = CeilInt r /\ 1 <= r <= 2.
Proof.
  revert preset. apply preset_cases.
  all: split; [reflexivity|].
  - exists 1. split; [vm_compute; reflexivity|lia].
  - exists 1. split; [vm_compute; reflexivity|lia].
  - exists 1. split; [vm_compute; reflexivity|lia].
  - exists 2. split; [vm_compute; reflexivity|lia].
Qed.

End BlendFacts.

(** X5. Under each of the four presets denoise never leaves the range of
    the window: every colour byte written for a pixel with a full window
    lies between two values of that pixel's window in the snapshot (it
    lies between the pixel's own value and the window median). *)
Theorem denoise_stays_in_window (width height : Z) (preset : Settings)
  (data : list Z) :
  preset ∈ ENHANCEMENT_PRESETS ->
  buffer_of width height data ->
  exists data' r,
    denoise_pass width height (denoise preset) data = Done data' /\
    Math_ceil (denoise preset * 2) = CeilInt r /\
    forall x y c,
      full_window width height r x y -> 0 <= c < 3 ->
      exists b lo hi,
        byte_at data' (pixel_index width x y c) = Some b /\
        lo ∈ window_values data width r x y c /\
        hi ∈ window_values data width r x y c /\
        lo <= b <= hi.
Proof.
  intros Hp Hbuf.
  destruct (preset_denoise_radius preset Hp) as (Hpos & r & Hr & Hr1).
  destruct (denoise_pass_meets_spec width height (denoise preset) data
              Hbuf Hpos) as (data' & Hrun & _ & Hspec).
  rewrite Hr in Hspec. destruct Hspec as (_ & Hin & _).
  exists data', r. split; [done|]. split; [done|].
  intros x y c Hfull Hc.
  destruct (Hin x y c Hfull Hc)
    as (original & sorted & median & Ho & _ & Hperm & _ & Hmed & Hb).
  assert (original ∈ window_values data width r x y c) as Hoin
    by (apply centre_in_window; [lia|done]).
  assert (median ∈ window_values data width r x y c) as Hmin.
  { rewrite <- Hperm. by eapply list_elem_of_lookup_2. }
  pose proof (blend_between preset original median Hp
                (window_values_bytes width height data Hbuf _ _ _ _ _ Hoin)
                (window_values_bytes width height data Hbuf _ _ _ _ _ Hmin))
    as Hrange.
  fold (denoise_blend (denoise preset) original median) in Hb.
  exists (denoise_blend (denoise preset) original median),
    (Z.min original median), (Z.max original median).
  split; [done|]. split; [|split; [|done]].
  - destruct (Z.min_spec original median) as [[_ ->]|[_ ->]]; done.
  - destruct (Z.max_spec original median) as [[_ ->]|[_ ->]]; done.
Qed.

Lemma denoise_stays_in_window_witness :
  exists data' r,
    denoise_pass 3 3 (denoise HDR) sample_3x3 = Done data' /\
    Math_ceil (denoise HDR * 2) = CeilInt r /\
    forall x y c,
      full_window 3 3 r x y -> 0 <= c < 3 ->
      exists b lo hi,
        byte_at data' (pixel_index 3 x y c) = Some b /\
        lo ∈ window_values sample_3x3 3 r x y c /\
        hi ∈ window_values sample_3x3 3 r x y c /\
        lo <= b <= hi.
Proof.
  apply (denoise_stays_in_window 3 3 HDR sample_3x3).
  - unfold ENHANCEMENT_PRESETS. do 2 right. left.
  - constructor; [lia|lia|reflexivity|reflexivity].
Defined.

(** X6. At strength 1 denoise is the median filter: with the radius 2,
    every colour byte of a pixel with a full window becomes the middle
    element (the thirteenth of 25) of the sorted window values of the
    snapshot. *)
Theorem denoise_full_strength_is_median (width height : Z) (data : list Z) :
  buffer_of width height data ->
  exists data',
    denoise_pass width height 1 data = Done data' /\
    forall x y c,
      full_window width height 2 x y -> 0 <= c < 3 ->
      exists sorted median,
        Sorted Z.le sorted /\
        sorted ≡ₚ window_values data width 2 x y c /\
        length sorted = 25%nat /\
        sorted !! 12%nat = Some median /\
        byte_at data' (pixel_index width x y c) = Some median.
Proof.
  intros Hbuf.
  destruct (denoise_pass_meets_spec width height 1 data Hbuf eq_refl)
    as (data' & Hrun & _ & Hspec).
  assert (Math_ceil (1 * 2) = CeilInt 2) as Hr by (vm_compute; reflexivity).
  rewrite Hr in Hspec. destruct Hspec as (_ & Hin & _).
  exists data'. split; [done|]. intros x y c Hfull Hc.
  destruct (Hin x y c Hfull Hc)
    as (original & sorted & median & Ho & Hs & Hperm & Hlen & Hmed & Hb).
  assert (length sorted = 25%nat) as Hlen' by lia.
  rewrite Hlen' in Hmed. change (25 / 2)%nat with 12%nat in Hmed.
  exists sorted, median. repeat (split; [done|]).
  rewrite Hb. f_equal.
  apply (blend_full_strength original median).
  - apply (window_values_bytes width height data Hbuf 2 x y c).
    apply centre_in_window; [lia|done].
  - apply (window_values_bytes width height data Hbuf 2 x y c).
    rewrite <- Hperm. by eapply list_elem_of_lookup_2.
Qed.

Lemma denoise_full_strength_is_median_witness :
  exists data',
    denoise_pass 5 5 1 sample_5x5 = Done data' /\
    forall x y c,
      full_window 5 5 2 x y -> 0 <= c < 3 ->
      exists sorted median,
        Sorted Z.le sorted /\
        sorted ≡ₚ window_values sample_5x5 5 2 x y c /\
        length sorted = 25%nat /\
        sorted !! 12%nat = Some median /\
        byte_at data' (pixel_index 5 x y c) = Some median.
Proof.
  apply (denoise_full_strength_is_median 5 5 sample_5x5).
  constructor; [lia|lia|reflexivity|reflexivity].
Defined.


(** ** Uniform windows *)

Section UniformFacts.

Lemma all_equal_replicate (values : list Z) (v : Z) :
  (forall u, u ∈ values -> u = v) -> values = replicate (length values) v.
Proof.
  intros H. symmetry. apply replicate_as_Forall. split; [done|].
  apply Forall_forall. intros u Hu. symmetry. by apply H.
Qed.

Lemma preset_deblur_radius preset :
  preset ∈ ENHANCEMENT_PRESETS ->
  (0 <? deblur preset)%float = true /\
  exists r, Math_ceil (deblur preset * 3) = CeilInt r /\ 2 <= r <= 3.
Proof.
  revert preset. apply preset_cases.
  all: split; [reflexivity|].
  - exists 2. split; [vm_compute; reflexivity|lia].
  - exists 3. split; [vm_compute; reflexivity|lia].
  - exists 2. split; [vm_compute; reflexivity|lia].
  - exists 3. split; [vm_compute; reflexivity|lia].
Qed.

(** The mean of the 25 or 49 values [v] is within the threshold of [v]. *)
Lemma uniform_mean_flat r v :
  2 <= r <= 3 -> is_byte v = true ->
  (deblur_threshold
   <? Math_abs (of_int v - uniform_mean (Z.to_nat ((2 * r + 1) * (2 * r + 1))) v))%float
  = false.
Proof.
  intros Hr Hv. apply negb_true_iff.
  assert (r = 2 \/ r = 3) as [-> | ->] by lia.
  - apply (byte_cases (fun v =>
      negb (deblur_threshold
            <? Math_abs (of_int v - uniform_mean 25 v))%float)); [|done].
    vm_compute. reflexivity.
  - apply (byte_cases (fun v =>
      negb (deblur_threshold
            <? Math_abs (of_int v - uniform_mean 49 v))%float)); [|done].
    vm_compute. reflexivity.
Qed.

Context (width height : Z) (data : list Z).
Hypothesis Hbuf : buffer_of width height data.

(** Denoise, under a preset, on a window of one value. *)
Lemma denoise_uniform_window preset data' r x y c v :
  preset ∈ ENHANCEMENT_PRESETS ->
  denoise_spec width height (denoise preset) data data' ->
  Math_ceil (denoise preset * 2) = CeilInt r ->
  full_window width height r x y -> 0 <= c < 3 ->
  (forall u, u ∈ window_values data width r x y c -> u = v) ->
  byte_at data' (pixel_index width x y c) = Some v.
Proof.
  intros Hp [_ Hspec] Hr Hfull Hc Hall. rewrite Hr in Hspec.
  destruct Hspec as (Hr0 & Hin & _).
  destruct (Hin x y c Hfull Hc)
    as (original & sorted & median & Ho & _ & Hperm & _ & Hmed & Hb).
  assert (original = v) as ->
    by (apply Hall, centre_in_window; [lia|done]).
  assert (median = v) as ->.
  { apply Hall. rewrite <- Hperm. by eapply list_elem_of_lookup_2. }
  rewrite Hb. f_equal.
  assert (is_byte v = true) as Hv.
  { apply (window_values_bytes width height data Hbuf r x y c).
    apply centre_in_window; [lia|done]. }
  pose proof (blend_between preset v v Hp Hv Hv) as H.
  unfold denoise_blend, blend_number in H. lia.
Qed.

(** Deblur, under a preset, on a window of one value. *)
Lemma deblur_uniform_window preset data' r x y c v :
  deblur_spec width height (deblur preset) data data' ->
  Math_ceil (deblur preset * 3) = CeilInt r -> 2 <= r <= 3 ->
  full_window width height r x y -> 0 <= c < 3 ->
  (forall u, u ∈ window_values data width r x y c -> u = v) ->
  byte_at data' (pixel_index width x y c) = Some v.
Proof.
  intros [_ Hspec] Hr Hr23 Hfull Hc Hall. rewrite Hr in Hspec.
  destruct Hspec as (Hr0 & Hin & _).
  destruct (Hin x y c Hfull Hc) as (original & Ho & Hlen & Hb).
  assert (original = v) as ->
    by (apply Hall, centre_in_window; [lia|done]).
  assert (is_byte v = true) as Hv.
  { apply (window_values_bytes width height data Hbuf r x y c).
    apply centre_in_window; [lia|done]. }
  cbn zeta in Hb. rewrite Hb.
  unfold window_mean.
  rewrite (all_equal_replicate _ v Hall), length_replicate.
  replace (length (window_values data width r x y c))
    with (Z.to_nat ((2 * r + 1) * (2 * r + 1))) by lia.
  fold (uniform_mean (Z.to_nat ((2 * r + 1) * (2 * r + 1))) v).
  change 10%float with deblur_threshold.
  by rewrite uniform_mean_flat.
Qed.

End UniformFacts.

(** X7. Under each of the four presets, a pixel whose whole window holds
    one value [v] in a channel keeps [v] in that channel, under denoise
    and under deblur: flat regions are left as they are. *)
Theorem flat_windows_are_kept (width height : Z) (preset : Settings)
  (data : list Z) :
  preset ∈ ENHANCEMENT_PRESETS ->
  buffer_of width height data ->
  (exists data' r,
     denoise_pass width height (denoise preset) data = Done data' /\
     Math_ceil (denoise preset * 2) = CeilInt r /\
     forall x y c v,
       full_window width height r x y -> 0 <= c < 3 ->
       (forall u, u ∈ window_values data width r x y c -> u = v) ->
       byte_at data' (pixel_index width x y c) = Some v) /\
  (exists data' r,
     deblur_pass width height (deblur preset) data = Done data' /\
     Math_ceil (deblur preset * 3) = CeilInt r /\
     forall x y c v,
       full_window width height r x y -> 0 <= c < 3 ->
       (forall u, u ∈ window_values data width r x y c -> u = v) ->
       byte_at data' (pixel_index width x y c) = Some v).
Proof.
  intros Hp Hbuf. split.
  - destruct (preset_denoise_radius preset Hp) as (Hpos & r & Hr & Hr1).
    destruct (denoise_pass_meets_spec width height (denoise preset) data
                Hbuf Hpos) as (data' & Hrun & Hspec).
    exists data', r. split; [done|]. split; [done|].
    intros x y c v Hfull Hc Hall.
    by apply (denoise_uniform_window width height data Hbuf preset data' r).
  - destruct (preset_deblur_radius preset Hp) as (Hpos & r & Hr & Hr1).
    destruct (deblur_pass_meets_spec width height (deblur preset) data
                Hbuf Hpos) as (data' & Hrun & Hspec).
    exists data', r. split; [done|]. split; [done|].
    intros x y c v Hfull Hc Hall.
    by apply (deblur_uniform_window width height data Hbuf preset data' r).
Qed.

Lemma flat_windows_are_kept_witness :
  (exists data',
     denoise_pass 7 7 (denoise Balanced) flat_centre_7x7 = Done data' /\
     window_values flat_centre_7x7 7 1 3 3 0 = replicate 9 128 /\
     byte_at data' (pixel_index 7 3 3 0) = Some 128) /\
  (exists data',
     deblur_pass 7 7 (deblur Balanced) flat_centre_7x7 = Done data' /\
     window_values flat_centre_7x7 7 2 3 3 0 = replicate 25 128 /\
     byte_at data' (pixel_index 7 3 3 0) = Some 128).
Proof.
  destruct (flat_windows_are_kept 7 7 Balanced flat_centre_7x7)
    as [(d & r & Hrun & Hr & Hflat) (d' & r' & Hrun' & Hr' & Hflat')].
  - unfold ENHANCEMENT_PRESETS. left.
  - constructor; [lia|lia|reflexivity|reflexivity].
  - assert (r = 1) as -> by (vm_compute in Hr; by injection Hr).
    assert (r' = 2) as -> by (vm_compute in Hr'; by injection Hr').
    assert (window_values flat_centre_7x7 7 1 3 3 0 = replicate 9 128)
      as Hwin by (vm_compute; reflexivity).
    assert (window_values flat_centre_7x7 7 2 3 3 0 = replicate 25 128)
      as Hwin' by (vm_compute; reflexivity).
    split.
    + exists d. split; [exact Hrun|]. split; [exact Hwin|].
      apply Hflat; [unfold full_window; lia|lia|].
      intros u Hu. rewrite Hwin in Hu.
      by apply elem_of_replicate in Hu as [-> _].
    + exists d'. split; [exact Hrun'|]. split; [exact Hwin'|].
      apply Hflat'; [unfold full_window; lia|lia|].
      intros u Hu. rewrite Hwin' in Hu.
      by apply elem_of_replicate in Hu as [-> _].
Defined.

(** ** Images of one colour *)

Section UniformImageFacts.
Context (width height : Z) (colour : Z -> Z).




Hypothesis Hw : 0 <= width.
Hypothesis Hh : 0 <= height.
Hypothesis Hcolour : forall c, 0 <= c < 4 -> is_byte (colour c) = true.


End UniformImageFacts.

Section UniformPipelineFacts.


Lemma preset_sharpens preset :
  preset ∈ ENHANCEMENT_PRESETS -> (1 <? sharpness preset)%float = true.
Proof. revert preset. by apply preset_cases. Qed.



Context (width height : Z) (colour : Z -> Z).
Hypothesis Hw : 0 <= width.
Hypothesis Hh : 0 <= height.
Hypothesis Hcolour : forall c, 0 <= c < 4 -> is_byte (colour c) = true.





End UniformPipelineFacts.




Example uniform_gray_balanced :
  uniform_result Balanced gray_128 false 0 = 128 /\
  uniform_result Balanced gray_128 true 0 = 138 /\
  uniform_result Balanced gray_128 true 3 = 255.
Proof. vm_compute. done. Qed.

(** ** The outermost ring *)

Section BorderFacts.

Lemma border_no_window width height r x y :
  on_border width height x y -> 1 <= r -> ~ full_window width height r x y.
Proof. unfold on_border, full_window. lia. Qed.

(** Denoise and deblur under a preset: the buffer stays a buffer and the
    outermost ring keeps its bytes. *)
Lemma denoise_preset_border width height preset data :
  preset ∈ ENHANCEMENT_PRESETS ->
  buffer_of width height data ->
  exists data',
    denoise_pass width height (denoise preset) data = Done data' /\
    buffer_of width height data' /\
    forall x y c,
      0 <= x < width -> 0 <= y < height -> 0 <= c < 4 ->
      on_border width height x y ->
      byte_at data' (pixel_index width x y c)
      = byte_at data (pixel_index width x y c).
Proof.
  intros Hp Hbuf.
  destruct (preset_denoise_radius preset Hp) as (Hpos & r & Hr & Hr1).
  destruct (denoise_pass_meets_spec width height (denoise preset) data
              Hbuf Hpos) as (d & Hrun & _ & Hspec).
  destruct (denoise_effect width height (denoise preset) data Hpos)
    as (d' & Hrun' & Heff).
  rewrite Hrun in Hrun'. injection Hrun' as <-.
  exists d. split; [done|]. split; [by eapply effect_buffer|].
  rewrite Hr in Hspec. destruct Hspec as (_ & _ & Hout).
  intros x y c Hx Hy Hc Hborder. apply Hout; try done.
  apply border_no_window; [done|lia].
Qed.

Lemma deblur_preset_border width height preset data :
  preset ∈ ENHANCEMENT_PRESETS ->
  buffer_of width height data ->
  exists data',
    deblur_pass width height (deblur preset) data = Done data' /\
    buffer_of width height data' /\
    forall x y c,
      0 <= x < width -> 0 <= y < height -> 0 <= c < 4 ->
      on_border width height x y ->
      byte_at data' (pixel_index width x y c)
      = byte_at data (pixel_index width x y c).
Proof.
  intros Hp Hbuf.
  destruct (preset_deblur_radius preset Hp) as (Hpos & r & Hr & Hr1).
  destruct (deblur_pass_meets_spec width height (deblur preset) data
              Hbuf Hpos) as (d & Hrun & _ & Hspec).
  destruct (deblur_effect width height (deblur preset) data Hpos)
    as (d' & Hrun' & Heff).
  rewrite Hrun in Hrun'. injection Hrun' as <-.
  exists d. split; [done|]. split; [by eapply effect_buffer|].
  rewrite Hr in Hspec. destruct Hspec as (_ & _ & Hout).
  intros x y c Hx Hy Hc Hborder. apply Hout; try done.
  apply border_no_window; [done|lia].
Qed.

End BorderFacts.

Lemma border_stages width height preset data :
  preset ∈ ENHANCEMENT_PRESETS ->
  buffer_of width height data ->
  exists out,
    run_stages width height preset stage_order data = Done out /\
    forall x y c,
      0 <= x < width -> 0 <= y < height -> 0 <= c < 3 ->
      on_border width height x y ->
      byte_at out (pixel_index width x y c)
      = tone_byte preset <$> byte_at data (pixel_index width x y c).
Proof.
  intros Hp Hbuf.
  destruct (preset_denoise_radius preset Hp) as (Hden & _).
  destruct (preset_deblur_radius preset Hp) as (Hdeb & _).
  pose proof (preset_sharpens preset Hp) as Hsharp.
  destruct (denoise_preset_border width height preset data Hp Hbuf)
    as (d1 & Hrun1 & Hbuf1 & Hborder1).
  destruct (deblur_preset_border width height preset d1 Hp Hbuf1)
    as (d2 & Hrun2 & Hbuf2 & Hborder2).
  unfold run_stages, run_stage, stage_order.
  cbn [fold_left stage_runs stage_body outcome_bind].
  rewrite Hden, Hrun1. cbn [outcome_bind].
  rewrite Hdeb, Hrun2. cbn [outcome_bind]. rewrite Hsharp.
  eexists. split; [reflexivity|].
  assert (buffer_of width height (tone_pass preset d2)) as Hbuf3
    by (eapply effect_buffer; [apply tone_effect|done]).
  pose proof (sharpen_loops_spec width height (sharpen_boost preset)
                (tone_pass preset d2) Hbuf3) as (_ & _ & Hout).
  intros x y c Hx Hy Hc Hborder.
  rewrite Hout; [|done|done|lia|by apply border_no_window].
  rewrite tone_pass_spec, pixel_index_channel by lia.
  case_decide; [lia|].
  rewrite Hborder2, Hborder1; done || lia.
Qed.

(** X9. Under each of the four presets [applyImageEnhancements] only
    tone-adjusts the outermost ring of pixels: on a canvas with pixels,
    every colour byte of a pixel of the first or last row or column is,
    after the call, the tone adjustment of the byte that the bitmap had
    there, whatever the rest of the image holds. *)
Theorem border_is_only_toned (width height : Z) (preset : Settings)
  (cv : Canvas) :
  preset ∈ ENHANCEMENT_PRESETS ->
  width <> 0 -> height <> 0 ->
  buffer_of width height (bitmap cv) ->
  exists out,
    applyImageEnhancements width height preset cv
    = Done (tt, with_bitmap cv out) /\
    forall x y c,
      0 <= x < width -> 0 <= y < height -> 0 <= c < 3 ->
      on_border width height x y ->
      byte_at out (pixel_index width x y c)
      = tone_byte preset <$> byte_at (bitmap cv) (pixel_index width x y c).
Proof.
  intros Hp Hw Hh Hbuf.
  destruct (border_stages width height preset (bitmap cv) Hp Hbuf)
    as (out & Hrun & Hout).
  exists out. split; [by apply applyImageEnhancements_run|done].
Qed.

Lemma border_is_only_toned_witness :
  exists out,
    applyImageEnhancements 3 3 Clarity canvas_3x3
    = Done (tt, with_bitmap canvas_3x3 out) /\
    forall x y c,
      0 <= x < 3 -> 0 <= y < 3 -> 0 <= c < 3 ->
      on_border 3 3 x y ->
      byte_at out (pixel_index 3 x y c)
      = tone_byte Clarity <$> byte_at (bitmap canvas_3x3) (pixel_index 3 x y c).
Proof.
  apply (border_is_only_toned 3 3 Clarity canvas_3x3).
  - unfold ENHANCEMENT_PRESETS. right. left.
  - lia.
  - lia.
  - constructor; [lia|lia|reflexivity|reflexivity].
Defined.

(** ** The tone curve of the presets *)

Section ToneCurveFacts.

Lemma tone_step_up preset v :
  preset ∈ ENHANCEMENT_PRESETS -> 0 <= v < 255 ->
  tone_byte preset v <= tone_byte preset (v + 1).
Proof.
  intros Hp Hv.
  assert (is_byte v = true) as Hbyte
    by (unfold is_byte; apply andb_true_iff; split; apply Z.leb_le; lia).
  assert ((v =? 255) || (tone_byte preset v <=? tone_byte preset (v + 1))
          = true) as Hcheck.
  { clear Hv. revert preset Hp v Hbyte.
    apply (preset_cases (fun preset => forall v, is_byte v = true ->
             (v =? 255) || (tone_byte preset v <=? tone_byte preset (v + 1))
             = true)).
    all: apply (byte_cases (fun v => (v =? 255) || (tone_byte _ v <=? tone_byte _ (v + 1)))).
    all: vm_compute; reflexivity. }
  apply orb_true_iff in Hcheck as [H255%Z.eqb_eq|H%Z.leb_le]; [lia|done].
Qed.

Lemma tone_curve_monotone preset u v :
  preset ∈ ENHANCEMENT_PRESETS -> 0 <= u -> u <= v -> v <= 255 ->
  tone_byte preset u <= tone_byte preset v.
Proof.
  intros Hp Hu Huv Hv.
  assert (forall n : nat, u + Z.of_nat n <= 255 ->
            tone_byte preset u <= tone_byte preset (u + Z.of_nat n)) as H.
  { induction n as [|n IH]; intros Hn.
    - rewrite Z.add_0_r. lia.
    - etrans; [apply IH; lia|].
      replace (u + Z.of_nat (S n)) with (u + Z.of_nat n + 1) by lia.
      apply tone_step_up; [done|lia]. }
  specialize (H (Z.to_nat (v - u))).
  replace (u + Z.of_nat (Z.to_nat (v - u))) with v in H by lia.
  apply H. lia.
Qed.

Lemma brightness_not_darker preset v :
  preset ∈ ENHANCEMENT_PRESETS -> is_byte v = true ->
  v <= brightness_step (brightness preset) v.
Proof.
  intros Hp Hv. apply Z.leb_le. revert preset Hp v Hv.
  apply (preset_cases (fun preset => forall v, is_byte v = true ->
           (v <=? brightness_step (brightness preset) v) = true)).
  all: apply byte_cases; vm_compute; reflexivity.
Qed.

End ToneCurveFacts.

(** X10. Under each of the four presets the tone stage keeps the order of
    the values: of two colour bytes of a buffer, the one that is not
    larger before the stage is not larger after it; and the brightness
    step of a preset never lowers a byte. *)
Theorem tone_keeps_order (preset : Settings) (data : list Z) :
  preset ∈ ENHANCEMENT_PRESETS ->
  forallb is_byte data = true ->
  (forall i j u v,
     i mod 4 <> 3 -> j mod 4 <> 3 ->
     byte_at data i = Some u -> byte_at data j = Some v -> u <= v ->
     exists u' v',
       byte_at (tone_pass preset data) i = Some u' /\
       byte_at (tone_pass preset data) j = Some v' /\
       u' <= v') /\
  (forall v, is_byte v = true -> v <= brightness_step (brightness preset) v).
Proof.
  intros Hp Hbytes. split; [|intros v; by apply brightness_not_darker].
  intros i j u v Hi Hj Hu Hv Huv.
  assert (forall k b, byte_at data k = Some b -> 0 <= b <= 255) as Hrange.
  { intros k b Hb. rewrite forallb_forall in Hbytes.
    assert (is_byte b = true) as H.
    { apply Hbytes, list_elem_of_In. unfold byte_at in Hb.
      destruct (k <? 0); [done|]. by eapply list_elem_of_lookup_2. }
    unfold is_byte in H. apply andb_true_iff in H as [H0 H1].
    apply Z.leb_le in H0, H1. lia. }
  exists (tone_byte preset u), (tone_byte preset v).
  rewrite !tone_pass_spec, Hu, Hv. repeat case_decide; try done.
  split; [done|]. split; [done|].
  apply tone_curve_monotone; [done|..].
  - apply (Hrange i u Hu).
  - done.
  - apply (Hrange j v Hv).
Qed.

Lemma tone_keeps_order_witness :
  (forall i j u v,
     i mod 4 <> 3 -> j mod 4 <> 3 ->
     byte_at sample_3x3 i = Some u -> byte_at sample_3x3 j = Some v ->
     u <= v ->
     exists u' v',
       byte_at (tone_pass HDR sample_3x3) i = Some u' /\
       byte_at (tone_pass HDR sample_3x3) j = Some v' /\
       u' <= v') /\
  (forall v, is_byte v = true -> v <= brightness_step (brightness HDR) v).
Proof.
  apply (tone_keeps_order HDR sample_3x3).
  - unfold ENHANCEMENT_PRESETS. do 2 right. left.
  - reflexivity.
Defined.
